(** * BiRefNet pipeline (internal_birefnet/pipeline.py): a shallow embedding

    The Python module is glue around PyTorch, Pillow, SciPy and the web UI's
    downloader.  The functions of the module are embedded as Rocq functions;
    the library calls they make are parameters of the sections below, so
    every theorem holds for any behaviour of those libraries that meets the
    few contracts stated as hypotheses.  A small reference instance of the
    libraries makes the embedding runnable on concrete inputs. *)

From Stdlib Require Import ZArith Bool Ascii String List Lia.
From Stdlib Require Import Numbers.DecimalString Numbers.DecimalZ.
Import ListNotations.
Open Scope string_scope.
Open Scope Z_scope.

(** ** Exceptions and results *)

(** The Python exceptions that matter here; [OtherError] stands for any
    exception raised inside a library (I/O, CUDA, network, ...). *)
Inductive exn : Type :=
| KeyError (key : string)
| ValueError
| TypeError
| IndexError
| RuntimeError
| OtherError (msg : string).

Inductive result (A : Type) : Type :=
| Ok (a : A)
| Raise (e : exn).
Arguments Ok {A} a.
Arguments Raise {A} e.

Definition rbind {A B : Type} (r : result A) (k : A -> result B) : result B :=
  match r with
  | Ok a => k a
  | Raise e => Raise e
  end.

(** [try: body / except: handler] with a bare [except]. *)
Definition try_except {A : Type} (body : result A) (handler : exn -> result A)
  : result A :=
  match body with
  | Ok a => Ok a
  | Raise e => handler e
  end.

Fixpoint rmapM {A B : Type} (f : A -> result B) (l : list A) : result (list B) :=
  match l with
  | [] => Ok []
  | a :: l' => rbind (f a) (fun b => rbind (rmapM f l') (fun bs => Ok (b :: bs)))
  end.

Declare Scope result_scope.
Delimit Scope result_scope with result.
Notation "x <- c1 ;; c2" := (rbind c1 (fun x => c2))
  (at level 61, c1 at next level, right associativity) : result_scope.

(** ** Effectful code: a state and exception monad

    [St] is whatever the code can change or leave a mark on (the file
    system, the log of library calls).  A raised exception keeps the state
    reached so far. *)
Module Eff.

Definition M (St A : Type) : Type := St -> result A * St.

Definition ret {St A : Type} (a : A) : M St A := fun s => (Ok a, s).

Definition raise {St A : Type} (e : exn) : M St A := fun s => (Raise e, s).

Definition bind {St A B : Type} (m : M St A) (k : A -> M St B) : M St B :=
  fun s =>
    match m s with
    | (Ok a, s') => k a s'
    | (Raise e, s') => (Raise e, s')
    end.

(** A pure fallible computation run inside the monad. *)
Definition lift {St A : Type} (r : result A) : M St A := fun s => (r, s).

(** The body of a [for] loop run over a tuple of items, left to right. *)
Fixpoint for_each {St A : Type} (body : A -> M St unit) (items : list A)
  : M St unit :=
  match items with
  | [] => ret tt
  | a :: rest => bind (body a) (fun _ => for_each body rest)
  end.

End Eff.

Declare Scope eff_scope.
Delimit Scope eff_scope with eff.
Notation "x <- c1 ;; c2" := (Eff.bind c1 (fun x => c2))
  (at level 61, c1 at next level, right associativity) : eff_scope.
Notation "c1 ;;; c2" := (Eff.bind c1 (fun _ => c2))
  (at level 61, right associativity) : eff_scope.

(** ** Python strings (ASCII) *)
Module PyStr.

(** [str(n)] for an [int]. *)
Definition str (n : Z) : string := NilEmpty.string_of_int (Z.to_int n).

(** [c.isspace()] on ASCII: tab, LF, VT, FF, CR, FS, GS, RS, US, space. *)
Definition isspace (c : ascii) : bool :=
  let n := nat_of_ascii c in
  ((9 <=? n) && (n <=? 13) || (28 <=? n) && (n <=? 32))%nat.

Fixpoint lstrip (s : string) : string :=
  match s with
  | EmptyString => EmptyString
  | String c r => if isspace c then lstrip r else s
  end.

Fixpoint rstrip (s : string) : string :=
  match s with
  | EmptyString => EmptyString
  | String c r =>
      match rstrip r with
      | EmptyString => if isspace c then EmptyString else String c EmptyString
      | r' => String c r'
      end
  end.

(** [s.strip()] *)
Definition strip (s : string) : string := rstrip (lstrip s).

(** [s.split(sep)] for a separator of one character: the pieces between
    the occurrences of [sep], never an empty list. *)
Fixpoint split (sep : ascii) (s : string) : list string :=
  match s with
  | EmptyString => [EmptyString]
  | String c r =>
      if Ascii.eqb c sep then EmptyString :: split sep r
      else match split sep r with
           | piece :: pieces => String c piece :: pieces
           | [] => [String c EmptyString]
           end
  end.

Definition digit_of_char (c : ascii) : option (Decimal.uint -> Decimal.uint) :=
  match c with
  | "0"%char => Some Decimal.D0
  | "1"%char => Some Decimal.D1
  | "2"%char => Some Decimal.D2
  | "3"%char => Some Decimal.D3
  | "4"%char => Some Decimal.D4
  | "5"%char => Some Decimal.D5
  | "6"%char => Some Decimal.D6
  | "7"%char => Some Decimal.D7
  | "8"%char => Some Decimal.D8
  | "9"%char => Some Decimal.D9
  | _ => None
  end.

(** The digits of an integer literal as [int()] accepts them: at least
    one digit, and single underscores allowed between digits only.
    [after_digit] tells whether the previous character was a digit. *)
Fixpoint digits (after_digit : bool) (s : string) : option Decimal.uint :=
  match s with
  | EmptyString => if after_digit then Some Decimal.Nil else None
  | String c r =>
      if Ascii.eqb c "_"%char then
        if after_digit then
          match r with
          | EmptyString => None
          | String _ _ => digits false r
          end
        else None
      else
        match digit_of_char c with
        | Some d => option_map d (digits true r)
        | None => None
        end
  end.

(** [int(s)] in base 10: surrounding whitespace is dropped, one sign is
    allowed, anything else raises [ValueError]. *)
Definition int (s : string) : result Z :=
  let t := strip s in
  let parsed :=
    match t with
    | String "-"%char r => option_map (fun d => - Z.of_uint d) (digits false r)
    | String "+"%char r => option_map Z.of_uint (digits false r)
    | _ => option_map Z.of_uint (digits false t)
    end in
  match parsed with
  | Some z => Ok z
  | None => Raise ValueError
  end.

(** No character of [s] satisfies [p]. *)
Fixpoint none_of (p : ascii -> bool) (s : string) : bool :=
  match s with
  | EmptyString => true
  | String c r => negb (p c) && none_of p r
  end.

End PyStr.

(** Character classes used to describe resolution strings. *)
Definition is_x (c : ascii) : bool := Ascii.eqb "x"%char c.

(** The characters [str] can produce: digits and the minus sign. *)
Definition is_numeric (c : ascii) : bool :=
  match PyStr.digit_of_char c with
  | Some _ => true
  | None => Ascii.eqb c "-"%char
  end.

Fixpoint all_of (p : ascii -> bool) (s : string) : bool :=
  match s with
  | EmptyString => true
  | String c r => p c && all_of p r
  end.

(** ** os.path (POSIX) *)
Module OsPath.

Definition startswith_slash (s : string) : bool :=
  match s with
  | String "/"%char _ => true
  | _ => false
  end.

Fixpoint endswith_slash (s : string) : bool :=
  match s with
  | EmptyString => false
  | String c EmptyString => Ascii.eqb c "/"%char
  | String _ r => endswith_slash r
  end.

(** One step of [os.path.join]: an absolute component replaces what came
    before it, otherwise it is appended after a single separator. *)
Definition join2 (path b : string) : string :=
  if startswith_slash b then b
  else if (String.eqb path "" || endswith_slash path)%bool then path ++ b
  else path ++ "/" ++ b.

(** [os.path.join(a, *p)] *)
Definition join (a : string) (p : list string) : string := fold_left join2 p a.

End OsPath.

(** ** The registry of models (module level) *)

(** A dict literal, in insertion order. *)
Definition dict (V : Type) : Type := list (string * V).

Fixpoint dict_get {V : Type} (d : dict V) (key : string) : option V :=
  match d with
  | [] => None
  | (k, v) :: d' => if String.eqb k key then Some v else dict_get d' key
  end.

(** [d[key]], raising [KeyError] when the key is missing. *)
Definition dict_getitem {V : Type} (d : dict V) (key : string) : result V :=
  match dict_get d key with
  | Some v => Ok v
  | None => Raise (KeyError key)
  end.

Definition usage_to_weights_file : dict string :=
  [ ("General", "BiRefNet");
    ("General-HR", "BiRefNet_HR");
    ("General-Lite", "BiRefNet_T");
    ("General-Lite-2K", "BiRefNet_lite-2K");
    ("Portrait", "BiRefNet-portrait");
    ("Matting", "BiRefNet-matting");
    ("Matting-HR", "BiRefNet_HR-matting");
    ("Matting-Lite", "BiRefNet_lite-matting");
    ("Anime-Lite", "BiRefNet_lite-anime");
    ("Dynamic", "BiRefNet_dynamic");
    ("DIS", "BiRefNet-DIS5K");
    ("HRSOD", "BiRefNet-HRSOD");
    ("COD", "BiRefNet-COD");
    ("DIS-TR_TEs", "BiRefNet-DIS5K-TR_TEs") ].

(** [BiRefNetModelName = Literal[...]]: the names allowed, one constructor
    per literal, and the string each stands for at run time. *)
Inductive BiRefNetModelName : Type :=
| General
| General_HR
| General_Lite
| General_Lite_2K
| Portrait
| Matting
| Matting_HR
| Matting_Lite
| Anime_Lite
| Dynamic
| DIS
| HRSOD
| COD
| DIS_TR_TEs.

Definition model_name_str (m : BiRefNetModelName) : string :=
  match m with
  | General => "General"
  | General_HR => "General-HR"
  | General_Lite => "General-Lite"
  | General_Lite_2K => "General-Lite-2K"
  | Portrait => "Portrait"
  | Matting => "Matting"
  | Matting_HR => "Matting-HR"
  | Matting_Lite => "Matting-Lite"
  | Anime_Lite => "Anime-Lite"
  | Dynamic => "Dynamic"
  | DIS => "DIS"
  | HRSOD => "HRSOD"
  | COD => "COD"
  | DIS_TR_TEs => "DIS-TR_TEs"
  end.

Definition all_model_names : list BiRefNetModelName :=
  [ General; General_HR; General_Lite; General_Lite_2K; Portrait; Matting;
    Matting_HR; Matting_Lite; Anime_Lite; Dynamic; DIS; HRSOD; COD;
    DIS_TR_TEs ].

(** ** Downloading the weights *)

(** What the module asks of the operating system and of the web UI's
    [modules.modelloader]: [W] is the state of the file system.  A call
    returns its outcome together with the file system it leaves. *)
Class OS (W : Type) : Type := {
  (** the module-level [models_path] *)
  models_path : string;
  (** [os.path.exists(path)] *)
  path_exists : string -> W -> bool;
  (** [os.makedirs(path, exist_ok=True)] *)
  makedirs : string -> W -> result unit * W;
  (** [load_file_from_url(url, model_dir=..., file_name=...)] *)
  load_file_from_url : string -> string -> string -> W -> result string * W
}.

(** The calls that change the file system, as they are logged. *)
Inductive oscall : Type :=
| Makedirs (path : string)
| LoadFileFromUrl (url model_dir file_name : string).


Section Download.
Context {W : Type} {os : OS W}.

(** The file system and the log of the calls made so far. *)
Definition dstate : Type := W * list oscall.

Definition os_path_exists (path : string) : Eff.M dstate bool :=
  fun s => (Ok (path_exists path (fst s)), s).

Definition os_makedirs (path : string) : Eff.M dstate unit :=
  fun s =>
    let (r, w') := makedirs path (fst s) in
    (r, (w', (snd s ++ [Makedirs path])%list)).

Definition call_load_file_from_url (url model_dir file_name : string)
  : Eff.M dstate string :=
  fun s =>
    let (r, w') := load_file_from_url url model_dir file_name (fst s) in
    (r, (w', (snd s ++ [LoadFileFromUrl url model_dir file_name])%list)).

Definition get_model_path (model_name : string) : string :=
  OsPath.join models_path ["birefnet"; model_name ++ ".safetensors"].

Definition download_models (model_root : string)
    (model_urls : list (string * string)) : Eff.M dstate unit :=
  (root_exists <- os_path_exists model_root ;;
   (if negb root_exists then os_makedirs model_root else Eff.ret tt) ;;;
   Eff.for_each
     (fun item : string * string =>
        let (local_file, url) := item in
        let local_path := OsPath.join model_root [local_file] in
        file_exists <- os_path_exists local_path ;;
        if negb file_exists then
          call_load_file_from_url url model_root local_file ;;; Eff.ret tt
        else Eff.ret tt)
     model_urls)%eff.

Definition weights_url (weights : string) : string :=
  "https://huggingface.co/ZhengPeng7/" ++ weights
    ++ "/resolve/main/model.safetensors".

Definition download_birefnet_model (model_name : string)
  : Eff.M dstate unit :=
  let model_root := OsPath.join models_path ["birefnet"] in
  (weights <- Eff.lift (dict_getitem usage_to_weights_file model_name) ;;
   let model_urls :=
     [ (model_name ++ ".safetensors", weights_url weights) ] in
   download_models model_root model_urls)%eff.

End Download.

(** ** Device selection (the head of [BiRefNetPipeline.__init__]) *)

(** The two probes of PyTorch; each either answers or raises. *)
Class TorchProbe : Type := {
  mps_is_available : result bool;
  cuda_is_available : result bool
}.

Section Device.
Context {probe : TorchProbe}.

(** The body of the [try]. *)
Definition detect_device (device_id : Z) : result string :=
  (mps <- mps_is_available ;;
   if mps : bool then Ok "mps"
   else
     cuda <- cuda_is_available ;;
     if cuda : bool then Ok ("cuda:" ++ PyStr.str device_id)
     else Ok "cpu")%result.

Definition init_device (flag_force_cpu : bool) (device_id : Z)
  : result string :=
  if flag_force_cpu then Ok "cpu"
  else try_except (detect_device device_id) (fun _ => Ok "cpu").

End Device.

(** ** NumPy arrays of two dimensions *)
Module Np.

Definition array2 (A : Type) : Type := list (list A).

(** [np.arange(n)] *)
Definition arange (n : Z) : list Z := map Z.of_nat (seq 0 (Z.to_nat n)).

(** [np.meshgrid(a, b)]: both results have a row per element of [b] and
    a column per element of [a]. *)
Definition meshgrid (a b : list Z) : array2 Z * array2 Z :=
  (map (fun _ => a) b, map (fun v => map (fun _ => v) a) b).

Fixpoint zip_with {A B C : Type} (f : A -> B -> C) (l1 : list A) (l2 : list B)
  : list C :=
  match l1, l2 with
  | a :: l1', b :: l2' => f a b :: zip_with f l1' l2'
  | _, _ => []
  end.

(** An elementwise operation on two arrays of one shape. *)
Definition map2 {A B C : Type} (f : A -> B -> C) (x : array2 A) (y : array2 B)
  : array2 C :=
  zip_with (zip_with f) x y.

Definition amap {A B : Type} (f : A -> B) (x : array2 A) : array2 B :=
  map (map f) x.

(** [.astype(np.uint8)] on a boolean array *)
Definition astype_uint8 (x : array2 bool) : array2 Z :=
  amap (fun b : bool => if b then 1 else 0) x.

(** [x * k] on a [uint8] array: the product wraps around at 256. *)
Definition mul_uint8 (x : array2 Z) (k : Z) : array2 Z :=
  amap (fun v => (v * k) mod 256) x.

(** [x ^ y] on boolean arrays; the two operands here are results of
    SciPy on one mask and have its shape. *)
Definition xor (x y : array2 bool) : array2 bool := map2 xorb x y.

(** [x[i][j]] *)
Definition get {A : Type} (x : array2 A) (i j : nat) : option A :=
  match nth_error x i with
  | Some row => nth_error row j
  | None => None
  end.

Definition all {A : Type} (p : A -> bool) (x : array2 A) : bool :=
  forallb (forallb p) x.

End Np.

(** ** The libraries behind the pipeline *)

(** Pillow images, PyTorch tensors, and the calls the pipeline makes on
    them.  Each call that can raise returns a [result]. *)
Class Libs (Image Tensor : Type) : Type := {
  (** [image.size], that is [(image.width, image.height)] *)
  image_size : Image -> Z * Z;
  (** [image.resize((w, h))] *)
  resize : Image -> Z -> Z -> result Image;
  (** [Image.fromarray(a)] for a two-dimensional [uint8] array *)
  fromarray : Np.array2 Z -> Image;
  (** [foreground.putalpha(mask)]: the foreground once updated *)
  putalpha : Image -> Image -> result Image;
  (** [ImagePreprocessor.transform_image]: [ToTensor] then [Normalize] *)
  transform_image : Image -> result Tensor;
  (** [transforms.ToPILImage()] *)
  to_pil_image : Tensor -> result Image;
  (** [t.unsqueeze(0)] *)
  unsqueeze0 : Tensor -> Tensor;
  (** [t.half()] *)
  half : Tensor -> Tensor;
  (** [t.to(device)] *)
  to_device : string -> Tensor -> result Tensor;
  (** [t.sigmoid()] *)
  sigmoid : Tensor -> Tensor;
  (** [t[0]] *)
  getitem0 : Tensor -> result Tensor;
  (** [t.squeeze()] *)
  squeeze : Tensor -> Tensor;
  (** [t.cpu()] *)
  cpu : Tensor -> Tensor;
  (** [scipy.ndimage.binary_dilation(mask, structure)] *)
  binary_dilation : Image -> Np.array2 Z -> result (Np.array2 bool);
  (** [scipy.ndimage.binary_erosion(mask, structure)] *)
  binary_erosion : Image -> Np.array2 Z -> result (Np.array2 bool);
  (** [birefnet.image_proc.refine_foreground(image, mask)] *)
  refine_foreground : Image -> Image -> result Image
}.

(** The fields of a constructed [BiRefNetPipeline]; [birefnet] is the
    loaded network as a callable returning its list of predictions. *)
Record BiRefNetPipeline (Tensor : Type) : Type := {
  model_name : string;
  device_id : Z;
  flag_force_cpu : bool;
  use_fp16 : bool;
  device : string;
  birefnet : Tensor -> result (list Tensor)
}.
Arguments model_name {Tensor} _.
Arguments device_id {Tensor} _.
Arguments flag_force_cpu {Tensor} _.
Arguments use_fp16 {Tensor} _.
Arguments device {Tensor} _.
Arguments birefnet {Tensor} _ _.

(** The library calls of [process] that the log keeps. *)
Inductive libcall (Image : Type) : Type :=
| CallResize (image : Image) (size : list Z)
| CallModel.
Arguments CallResize {Image} image size.
Arguments CallModel {Image}.

Definition is_model_call {Image : Type} (c : libcall Image) : bool :=
  match c with
  | CallModel => true
  | CallResize _ _ => false
  end.

(** [l[-1]] *)
Definition last_item {A : Type} (l : list A) : result A :=
  match rev l with
  | a :: _ => Ok a
  | [] => Raise IndexError
  end.

Section Pipeline.
Context {Image Tensor : Type} {libs : Libs Image Tensor}.

Definition width (image : Image) : Z := fst (image_size image).
Definition height (image : Image) : Z := snd (image_size image).

(** [image.resize(size)] for a tuple [size] of any length: Pillow wants
    a pair. *)
Definition image_resize (image : Image) (size : list Z) : result Image :=
  match size with
  | [w; h] => resize image w h
  | _ => Raise TypeError
  end.

(** The structuring element of [dilate_mask]: the test
    [(x - center) ** 2 + (y - center) ** 2 <= center**2] on the grid,
    then [.astype(np.uint8)].  The grid holds [int64] values; a grid that
    fits in memory keeps the squares far below the point where they would
    wrap, so they are computed in [Z]. *)
Definition disc (x y : Np.array2 Z) (center : Z) : Np.array2 Z :=
  Np.astype_uint8
    (Np.map2 (fun xv yv => (xv - center) ^ 2 + (yv - center) ^ 2 <=? center ^ 2)
             x y).

(** The structuring element [dilate_mask] builds for [dilation_amt], on
    either branch. *)
Definition dilation_kernel (dilation_amt : Z) : Np.array2 Z :=
  let dilation_amt_abs := Z.abs dilation_amt in
  let (x, y) := Np.meshgrid (Np.arange dilation_amt_abs)
                            (Np.arange dilation_amt_abs) in
  disc x y (dilation_amt_abs / 2).

Definition dilate_mask (mask : Image) (dilation_amt : Z)
  : result (Np.array2 bool) :=
  let dilation_amt_abs := Z.abs dilation_amt in
  let (x, y) := Np.meshgrid (Np.arange dilation_amt_abs)
                            (Np.arange dilation_amt_abs) in
  let center := dilation_amt_abs / 2 in
  if dilation_amt <? 0 then
    let dilation_kernel := disc x y center in
    binary_erosion mask dilation_kernel
  else
    let dilation_kernel := disc x y center in
    binary_dilation mask dilation_kernel.

Definition get_edge_mask (mask : Image) (mask_width : Z) : result Image :=
  let dilation_amt := mask_width / 2 in
  (dilate_binary_img <- dilate_mask mask dilation_amt ;;
   erode_binary_img <- dilate_mask mask (- dilation_amt) ;;
   let binary_img := Np.xor dilate_binary_img erode_binary_img in
   Ok (fromarray (Np.mul_uint8 (Np.astype_uint8 binary_img) 255)))%result.

(** The string [process] reads the working resolution from. *)
Definition resolution_string (image : Image) (resolution : string) : string :=
  if String.eqb resolution "" then
    PyStr.str (width image) ++ "x" ++ PyStr.str (height image)
  else resolution.

(** The local [image_resolution] of [process] once computed. *)
Definition image_resolution (image : Image) (resolution : string)
  : result (list Z) :=
  rmapM (fun reso => (v <- PyStr.int reso ;; Ok (v / 32 * 32))%result)
        (PyStr.split "x"%char (PyStr.strip (resolution_string image resolution))).

Definition trace : Type := list (libcall Image).

Definition call_resize (image : Image) (size : list Z) : Eff.M trace Image :=
  fun t => (image_resize image size, (t ++ [CallResize image size])%list).

Definition call_birefnet (self : BiRefNetPipeline Tensor) (x : Tensor)
  : Eff.M trace (list Tensor) :=
  fun t => (birefnet self x, (t ++ [CallModel])%list).

Definition process (self : BiRefNetPipeline Tensor) (image : Image)
    (resolution : string)
    (return_mask return_foreground return_edge_mask : bool)
    (edge_mask_width : Z)
  : Eff.M trace (option Image * option Image * option Image) :=
  if (negb return_mask && negb return_foreground && negb return_edge_mask)%bool
  then Eff.ret (None, None, None)
  else
    (size <- Eff.lift (image_resolution image resolution) ;;
     image_pil <- call_resize image size ;;
     image_proc <- Eff.lift (transform_image image_pil) ;;
     let image_proc := unsqueeze0 image_proc in
     let image_proc := if use_fp16 self then half image_proc else image_proc in
     on_device <- Eff.lift (to_device (device self) image_proc) ;;
     preds <- call_birefnet self on_device ;;
     last_pred <- Eff.lift (last_item preds) ;;
     let scaled_pred_tensor := sigmoid last_pred in
     pred0 <- Eff.lift (getitem0 scaled_pred_tensor) ;;
     let pred := cpu (squeeze pred0) in
     pred_pil <- Eff.lift (to_pil_image pred) ;;
     mask <- call_resize pred_pil [width image; height image] ;;
     foreground <-
       (if return_foreground then
          fg <- Eff.lift (refine_foreground image mask) ;;
          fg' <- Eff.lift (putalpha fg mask) ;;
          Eff.ret (Some fg')
        else Eff.ret None) ;;
     edge_mask <-
       (if return_edge_mask then
          em <- Eff.lift (get_edge_mask mask edge_mask_width) ;;
          Eff.ret (Some em)
        else Eff.ret None) ;;
     let mask := if negb return_mask then None else Some mask in
     Eff.ret (mask, foreground, edge_mask))%eff.

End Pipeline.

(** ** A reference instance of the libraries

    Small executable stand-ins, enough to run the embedding: grey images as
    grids of bytes, nearest-neighbour resizing, textbook binary morphology
    with the origin of the structuring element at [n // 2] and a zero
    border, a network that thresholds its input, and a file system that is
    the list of the paths present.  The theorems do not depend on them. *)
Module Ref.

Record image : Type := {
  cols : Z;
  rows : Z;
  data : Np.array2 Z
}.

Definition pixel (im : image) (i j : Z) : Z :=
  if (i <? 0) || (j <? 0) then 0
  else nth (Z.to_nat j) (nth (Z.to_nat i) (data im) []) 0.

Definition grid {A : Type} (h w : Z) (f : Z -> Z -> A) : Np.array2 A :=
  map (fun i => map (fun j => f i j) (Np.arange w)) (Np.arange h).

Definition ref_resize (im : image) (w h : Z) : result image :=
  if (w <? 1) || (h <? 1) then Raise ValueError
  else Ok {| cols := w; rows := h;
             data := grid h w (fun i j => pixel im (i * rows im / h)
                                                   (j * cols im / w)) |}.

Definition ref_fromarray (a : Np.array2 Z) : image :=
  {| cols := Z.of_nat (length (hd [] a));
     rows := Z.of_nat (length a);
     data := a |}.

(** The offsets, from the origin, of the cells of a structuring element
    that are set. *)
Definition offsets (structure : Np.array2 Z) : list (Z * Z) :=
  let c := Z.of_nat (length structure) / 2 in
  concat
    (map (fun ir : Z * list Z =>
            concat
              (map (fun jv : Z * Z =>
                      if snd jv =? 0 then [] else [(fst ir - c, fst jv - c)])
                   (combine (Np.arange (Z.of_nat (length (snd ir)))) (snd ir))))
         (combine (Np.arange (Z.of_nat (length structure))) structure)).

Definition set_at (im : image) (i j : Z) : bool :=
  (0 <=? i) && (i <? rows im) && (0 <=? j) && (j <? cols im)
  && negb (pixel im i j =? 0).

Definition ref_binary_dilation (mask : image) (structure : Np.array2 Z)
  : result (Np.array2 bool) :=
  match structure with
  | [] => Raise RuntimeError
  | _ =>
      Ok (grid (rows mask) (cols mask)
            (fun i j =>
               existsb (fun o : Z * Z => set_at mask (i - fst o) (j - snd o))
                       (offsets structure)))
  end.

Definition ref_binary_erosion (mask : image) (structure : Np.array2 Z)
  : result (Np.array2 bool) :=
  match structure with
  | [] => Raise RuntimeError
  | _ =>
      Ok (grid (rows mask) (cols mask)
            (fun i j =>
               forallb (fun o : Z * Z => set_at mask (i + fst o) (j + snd o))
                       (offsets structure)))
  end.

#[export] Instance ref_libs : Libs image image := {|
  image_size := fun im => (cols im, rows im);
  resize := ref_resize;
  fromarray := ref_fromarray;
  putalpha := fun fg _ => Ok fg;
  transform_image := fun im => Ok im;
  to_pil_image := fun t => Ok t;
  unsqueeze0 := fun t => t;
  half := fun t => t;
  to_device := fun _ t => Ok t;
  sigmoid := fun t => t;
  getitem0 := fun t => Ok t;
  squeeze := fun t => t;
  cpu := fun t => t;
  binary_dilation := ref_binary_dilation;
  binary_erosion := ref_binary_erosion;
  refine_foreground := fun im _ => Ok im
|}.

(** A network that marks the pixels brighter than 127. *)
Definition threshold (t : image) : result (list image) :=
  Ok [ {| cols := cols t; rows := rows t;
          data := Np.amap (fun v => if 127 <? v then 255 else 0) (data t) |} ].

Definition pipeline : BiRefNetPipeline image := {|
  model_name := "General";
  device_id := 0;
  flag_force_cpu := true;
  use_fp16 := false;
  device := "cpu";
  birefnet := threshold
|}.

(** A 32 x 32 image with a bright 16 x 16 square in the middle. *)
Definition square : image :=
  {| cols := 32; rows := 32;
     data := grid 32 32
               (fun i j => if (8 <=? i) && (i <? 24) && (8 <=? j) && (j <? 24)
                           then 200 else 10) |}.

(** One run of [process]: mask and edge mask asked for, no foreground. *)
Definition run : result (option image * option image * option image)
                 * list (libcall image) :=
  process pipeline square "" true false true 4 [].

Definition run_mask : option image :=
  match fst run with
  | Ok (mask, _, _) => mask
  | Raise _ => None
  end.

Definition run_foreground : option image :=
  match fst run with
  | Ok (_, foreground, _) => foreground
  | Raise _ => None
  end.

Definition run_edge_mask : option image :=
  match fst run with
  | Ok (_, _, edge_mask) => edge_mask
  | Raise _ => None
  end.


(** The edge band of the square, four pixels wide. *)
Definition square_edge : image :=
  match get_edge_mask square 4 with
  | Ok im => im
  | Raise _ => square
  end.

(** A file system: the paths present. *)
Definition fs : Type := list string.

Definition present (path : string) (w : fs) : bool :=
  existsb (String.eqb path) w.

#[export] Instance ref_os : OS fs := {|
  models_path := "/srv/webui/models";
  path_exists := present;
  makedirs := fun path w => (Ok tt, if present path w then w else path :: w);
  load_file_from_url := fun _ model_dir file_name w =>
    let cached_file := OsPath.join model_dir [file_name] in
    (Ok cached_file, if present cached_file w then w else cached_file :: w)
|}.

(** PyTorch on a machine where probing for MPS fails. *)
#[export] Instance broken_probe : TorchProbe := {|
  mps_is_available := Raise (OtherError "mps backend missing");
  cuda_is_available := Ok true
|}.

End Ref.

(** ** Resolution strings *)


(** ** The loop of [download_models], item by item *)

Section DownloadLoop.
Context {W : Type} {os : OS W}.

(** The body of the [for] loop of [download_models]. *)
Definition download_item (model_root : string) (item : string * string)
  : Eff.M dstate unit :=
  (let (local_file, url) := item in
   let local_path := OsPath.join model_root [local_file] in
   file_exists <- os_path_exists local_path ;;
   if negb file_exists then
     call_load_file_from_url url model_root local_file ;;; Eff.ret tt
   else Eff.ret tt)%eff.

(** The download an item of [model_urls] stands for. *)
Definition item_call (model_root : string) (item : string * string) : oscall :=
  LoadFileFromUrl (snd item) model_root (fst item).

End DownloadLoop.

(** [kept] is [l] with some elements left out, the order kept. *)
Inductive subseq {A : Type} : list A -> list A -> Prop :=
| subseq_nil : forall l, subseq [] l
| subseq_skip : forall x kept l, subseq kept l -> subseq kept (x :: l)
| subseq_take : forall x kept l, subseq kept l -> subseq (x :: kept) (x :: l).

(** ** A machine without network

    The file system of [Ref], with a downloader that always fails. *)
Module Offline.

#[export] Instance offline_os : OS Ref.fs := {|
  models_path := "/srv/webui/models";
  path_exists := Ref.present;
  makedirs := fun path w => (Ok tt, if Ref.present path w then w else path :: w);
  load_file_from_url := fun _ _ _ w => (Raise (OtherError "network unreachable"), w)
|}.

End Offline.


(** ** Construction of the pipeline ([BiRefNetPipeline.__init__]) *)

(** [x in s] for two strings: [x] occurs in [s]. *)
Fixpoint str_contains (x s : string) : bool :=
  if String.prefix x s then true
  else
    match s with
    | EmptyString => false
    | String _ r => str_contains x r
    end.

(** What [__init__] asks of safetensors, of PyTorch and of the network's
    class: [StateDict] is what [load_file] returns, [Net] the module. *)
Class Weights (W StateDict Net Tensor : Type) : Type := {
  (** [load_file(path, device=device)], read from the file system *)
  load_file : string -> string -> W -> result StateDict;
  (** [BiRefNet(bb_pretrained=..., bb_index=...)] *)
  new_birefnet : bool -> Z -> result Net;
  (** [net.load_state_dict(state_dict)]: the module once loaded *)
  load_state_dict : Net -> StateDict -> result Net;
  (** [net.to(device)] *)
  net_to : string -> Net -> result Net;
  (** [net.eval()] *)
  net_eval : Net -> Net;
  (** [net.half()] *)
  net_half : Net -> Net;
  (** [net(x)] *)
  net_call : Net -> Tensor -> result (list Tensor)
}.

Section Init.
Context {W StateDict Net Tensor : Type}.
Context {os : OS W} {probe : TorchProbe} {weights : Weights W StateDict Net Tensor}.

Definition call_load_file (path device : string) : Eff.M dstate StateDict :=
  fun s => (load_file path device (fst s), s).

Definition BiRefNetPipeline_init (model_name : string) (device_id : Z)
    (flag_force_cpu use_fp16 : bool) : Eff.M dstate (BiRefNetPipeline Tensor) :=
  (device <- Eff.lift (init_device flag_force_cpu device_id) ;;
   download_birefnet_model model_name ;;;
   let weight_path := get_model_path model_name in
   state_dict <- call_load_file weight_path device ;;
   let bb_index := if str_contains "Lite" model_name then 3 else 6 in
   net <- Eff.lift (new_birefnet false bb_index) ;;
   net <- Eff.lift (load_state_dict net state_dict) ;;
   net <- Eff.lift (net_to device net) ;;
   let net := net_eval net in
   let net := if use_fp16 then net_half net else net in
   Eff.ret {| model_name := model_name;
              device_id := device_id;
              flag_force_cpu := flag_force_cpu;
              use_fp16 := use_fp16;
              device := device;
              birefnet := net_call net |})%eff.

End Init.

(** A stand-in for the weights: a state dict is the path it was read
    from, the network is [Ref.threshold] whatever was loaded. *)
Module RefNet.

Record net : Type := { bb_index : Z; loaded_from : string; on : string;
                       halved : bool }.

#[export] Instance ref_weights : Weights Ref.fs string net Ref.image := {|
  load_file := fun path _ w =>
    if Ref.present path w then Ok path
    else Raise (OtherError "No such file or directory");
  new_birefnet := fun _ bb =>
    Ok {| bb_index := bb; loaded_from := ""; on := "cpu"; halved := false |};
  load_state_dict := fun n sd =>
    Ok {| bb_index := bb_index n; loaded_from := sd; on := on n;
          halved := halved n |};
  net_to := fun device n =>
    Ok {| bb_index := bb_index n; loaded_from := loaded_from n; on := device;
          halved := halved n |};
  net_eval := fun n => n;
  net_half := fun n =>
    {| bb_index := bb_index n; loaded_from := loaded_from n; on := on n;
       halved := true |};
  net_call := fun _ => Ref.threshold
|}.

(** The pipeline built for "Matting-Lite" on an empty cache. *)
Definition built : result (BiRefNetPipeline Ref.image) * (Ref.fs * list oscall) :=
  BiRefNetPipeline_init (os := Ref.ref_os) (probe := Ref.broken_probe)
    "Matting-Lite" 0 false true ([], []).

Definition built_pipeline : BiRefNetPipeline Ref.image :=
  match fst built with
  | Ok p => p
  | Raise _ => Ref.pipeline
  end.

End RefNet.

(** * Theorems *)

(** ** The registry *)

(** C8: every name allowed by [BiRefNetModelName] is a key of
    [usage_to_weights_file]; for such a name [download_birefnet_model] gets
    past the lookup and hands [download_models] the URL built from the
    registry entry, so no [KeyError] comes from building the URL. *)
Theorem usage_to_weights_file_total :
  forall m : BiRefNetModelName,
    exists weights,
      dict_getitem usage_to_weights_file (model_name_str m) = Ok weights /\
      forall (W : Type) (os : OS W) (s : dstate),
        download_birefnet_model (model_name_str m) s =
        download_models (OsPath.join models_path ["birefnet"])
          [ (model_name_str m ++ ".safetensors", weights_url weights) ] s.
Proof.
  intros m.
  destruct (dict_getitem usage_to_weights_file (model_name_str m)) as [w | e] eqn:E.
  - exists w. split; [reflexivity |].
    intros W os s. unfold download_birefnet_model, Eff.bind, Eff.lift.
    rewrite E. reflexivity.
  - destruct m; discriminate E.
Qed.

(** The registry has no key outside the type either. *)
Lemma usage_to_weights_file_keys :
  map fst usage_to_weights_file = map model_name_str all_model_names.
Proof. reflexivity. Qed.

(** ** Device selection *)

(** C4: with [flag_force_cpu] the device is "cpu"; without it, whenever the
    detection raises, the device is "cpu" as well; and in every case the
    selection returns a device, it never raises. *)
Theorem init_device_total :
  forall (probe : TorchProbe) (device_id : Z),
    init_device true device_id = Ok "cpu" /\
    (forall e, detect_device device_id = Raise e ->
               init_device false device_id = Ok "cpu") /\
    (forall flag_force_cpu, exists d, init_device flag_force_cpu device_id = Ok d).
Proof.
  intros probe device_id. split; [reflexivity | split].
  - intros e He. unfold init_device. rewrite He. reflexivity.
  - intros [|]; unfold init_device.
    + eexists; reflexivity.
    + destruct (detect_device device_id); simpl; eexists; reflexivity.
Qed.

Lemma init_device_total_witness :
  @detect_device Ref.broken_probe 1 = Raise (OtherError "mps backend missing") /\
  @init_device Ref.broken_probe false 1 = Ok "cpu".
Proof.
  split; [reflexivity |].
  apply (proj1 (proj2 (init_device_total Ref.broken_probe 1))
               (OtherError "mps backend missing")).
  reflexivity.
Defined.

(** ** The structuring element *)

Lemma zip_with_map {A B C D : Type} (f : B -> C -> D) (g : A -> B) (h : A -> C)
    (l : list A) :
  Np.zip_with f (map g l) (map h l) = map (fun v => f (g v) (h v)) l.
Proof.
  induction l as [| a l IH]; simpl; [reflexivity | now rewrite IH].
Qed.

Lemma zip_with_map_r {A C D : Type} (f : A -> C -> D) (h : A -> C) (l : list A) :
  Np.zip_with f l (map h l) = map (fun v => f v (h v)) l.
Proof.
  rewrite <- (map_id l) at 1. apply zip_with_map.
Qed.

Lemma nth_error_arange (n : Z) (i : nat) :
  (i < Z.to_nat n)%nat -> nth_error (Np.arange n) i = Some (Z.of_nat i).
Proof.
  intros Hi. unfold Np.arange.
  rewrite nth_error_map, nth_error_seq.
  apply Nat.ltb_lt in Hi. rewrite Hi. reflexivity.
Qed.

(** The kernel cell by cell: row [i] is the [y] coordinate, column [j]
    the [x] coordinate. *)
Lemma dilation_kernel_rows (amt : Z) :
  dilation_kernel amt =
  map (fun i =>
         map (fun j =>
                if (j - Z.abs amt / 2) ^ 2 + (i - Z.abs amt / 2) ^ 2
                   <=? (Z.abs amt / 2) ^ 2
                then 1 else 0)
             (Np.arange (Z.abs amt)))
      (Np.arange (Z.abs amt)).
Proof.
  unfold dilation_kernel, Np.meshgrid, disc, Np.astype_uint8, Np.amap, Np.map2.
  rewrite zip_with_map, map_map.
  apply map_ext. intros i.
  rewrite zip_with_map_r, map_map. reflexivity.
Qed.

Lemma get_dilation_kernel (amt : Z) (i j : nat) :
  (i < Z.to_nat (Z.abs amt))%nat ->
  (j < Z.to_nat (Z.abs amt))%nat ->
  Np.get (dilation_kernel amt) i j =
  Some (if (Z.of_nat j - Z.abs amt / 2) ^ 2 + (Z.of_nat i - Z.abs amt / 2) ^ 2
           <=? (Z.abs amt / 2) ^ 2
        then 1 else 0).
Proof.
  intros Hi Hj. rewrite dilation_kernel_rows. unfold Np.get.
  rewrite nth_error_map, (nth_error_arange _ _ Hi). simpl.
  rewrite nth_error_map, (nth_error_arange _ _ Hj). reflexivity.
Qed.

Lemma nth_error_arange_outside (n : Z) (i : nat) :
  (Z.to_nat n <= i)%nat -> nth_error (Np.arange n) i = None.
Proof.
  intros Hi. apply nth_error_None. unfold Np.arange.
  rewrite length_map, length_seq. exact Hi.
Qed.

Lemma get_dilation_kernel_outside (amt : Z) (i j : nat) :
  (Z.to_nat (Z.abs amt) <= i)%nat \/ (Z.to_nat (Z.abs amt) <= j)%nat ->
  Np.get (dilation_kernel amt) i j = None.
Proof.
  intros Hij. rewrite dilation_kernel_rows. unfold Np.get.
  rewrite nth_error_map.
  destruct (nth_error (Np.arange (Z.abs amt)) i) as [v |] eqn:Ei; simpl;
    [| reflexivity].
  rewrite nth_error_map.
  destruct Hij as [Hi | Hj].
  - rewrite (nth_error_arange_outside _ _ Hi) in Ei. discriminate Ei.
  - rewrite (nth_error_arange_outside _ _ Hj). reflexivity.
Qed.

(** Which library call [dilate_mask] makes, and with which kernel. *)
Lemma dilate_mask_call {Image Tensor : Type} {libs : Libs Image Tensor}
    (mask : Image) (amt : Z) :
  dilate_mask mask amt =
  if amt <? 0 then binary_erosion mask (dilation_kernel amt)
  else binary_dilation mask (dilation_kernel amt).
Proof.
  unfold dilate_mask, dilation_kernel, Np.meshgrid.
  destruct (amt <? 0); reflexivity.
Qed.

Lemma dilation_kernel_opp (amt : Z) :
  dilation_kernel (- amt) = dilation_kernel amt.
Proof.
  unfold dilation_kernel. rewrite Z.abs_opp. reflexivity.
Qed.

(** C6, as stated, fails for an even amount: the kernel of amount 2 is
    [[0, 1], [1, 1]], whose corner cells differ. *)
Lemma dilation_kernel_even_not_reflected :
  ~ (forall (amt : Z) (i j : nat),
       let n := Z.to_nat (Z.abs amt) in
       (i < n)%nat -> (j < n)%nat ->
       Np.get (dilation_kernel amt) i j =
       Np.get (dilation_kernel amt) (n - 1 - i) (n - 1 - j)).
Proof.
  intros H. specialize (H 2 0%nat 0%nat). simpl in H.
  assert (Hlt : (0 < Pos.to_nat 2)%nat) by (vm_compute; lia).
  specialize (H Hlt Hlt). vm_compute in H. discriminate H.
Qed.

(** C6 (amended): [dilate_mask] hands the library the kernel
    [dilation_kernel amt], the same one for [amt] and [- amt]; the kernel is
    symmetric under transposition for every amount, and invariant under
    point reflection about the centre of the grid when the amount is odd. *)
Theorem dilation_kernel_symmetric :
  forall (amt : Z) (i j : nat),
    let n := Z.to_nat (Z.abs amt) in
    dilation_kernel (- amt) = dilation_kernel amt /\
    (forall (Image Tensor : Type) (libs : Libs Image Tensor) (mask : Image),
        dilate_mask mask amt =
        if amt <? 0 then binary_erosion mask (dilation_kernel amt)
        else binary_dilation mask (dilation_kernel amt)) /\
    Np.get (dilation_kernel amt) i j = Np.get (dilation_kernel amt) j i /\
    (Z.odd amt = true -> (i < n)%nat -> (j < n)%nat ->
     Np.get (dilation_kernel amt) i j =
     Np.get (dilation_kernel amt) (n - 1 - i) (n - 1 - j)).
Proof.
  intros amt i j n.
  split; [apply dilation_kernel_opp |].
  split; [intros; apply dilate_mask_call |].
  split.
  - destruct (Nat.lt_ge_cases i n) as [Hi | Hi], (Nat.lt_ge_cases j n) as [Hj | Hj];
      try (rewrite !get_dilation_kernel_outside by (fold n; lia); reflexivity).
    rewrite !get_dilation_kernel by assumption.
    rewrite Z.add_comm. reflexivity.
  - intros Hodd Hi Hj.
    rewrite !get_dilation_kernel by (fold n; lia).
    fold n.
    assert (Habs : Z.odd (Z.abs amt) = true).
    { destruct amt; simpl in *; auto. }
    set (a := Z.abs amt) in *.
    assert (Ha : 0 <= a) by apply Z.abs_nonneg.
    assert (Hn : Z.of_nat n = a) by (unfold n; lia).
    assert (Hc : a = 2 * (a / 2) + 1).
    { rewrite (Z.div_mod a 2) at 1 by lia.
      rewrite Zdiv.Zmod_odd, Habs. reflexivity. }
    set (c := a / 2) in *.
    replace (Z.of_nat (n - 1 - j) - c) with (- (Z.of_nat j - c)) by lia.
    replace (Z.of_nat (n - 1 - i) - c) with (- (Z.of_nat i - c)) by lia.
    rewrite !Z.pow_2_r, !Z.mul_opp_opp. reflexivity.
Qed.

Lemma dilation_kernel_symmetric_witness :
  Np.get (dilation_kernel 3) 0 1 = Np.get (dilation_kernel 3) 2 1.
Proof.
  apply (proj2 (proj2 (proj2 (dilation_kernel_symmetric 3 0 1))));
    [reflexivity | vm_compute; lia | vm_compute; lia].
Defined.

(** ** The edge mask *)

Lemma zip_with_comm {A B : Type} (f : A -> A -> B) (l1 l2 : list A) :
  (forall a b, f a b = f b a) ->
  Np.zip_with f l1 l2 = Np.zip_with f l2 l1.
Proof.
  intros Hf. revert l2.
  induction l1 as [| a l1 IH]; intros [| b l2]; simpl; try reflexivity.
  now rewrite Hf, IH.
Qed.

Lemma xor_comm (x y : Np.array2 bool) : Np.xor x y = Np.xor y x.
Proof.
  unfold Np.xor, Np.map2.
  apply zip_with_comm. intros a b.
  apply zip_with_comm. apply xorb_comm.
Qed.

Lemma edge_values_binary (b : Np.array2 bool) :
  Np.all (fun v => (v =? 0) || (v =? 255))
         (Np.mul_uint8 (Np.astype_uint8 b) 255) = true.
Proof.
  unfold Np.all, Np.mul_uint8, Np.astype_uint8, Np.amap.
  rewrite map_map.
  induction b as [| row b IH]; simpl; [reflexivity |].
  rewrite IH, andb_true_r, map_map.
  clear IH. induction row as [| [|] row IHr]; simpl; auto.
Qed.

Section EdgeMask.
Context {Image Tensor : Type} {libs : Libs Image Tensor}.

Lemma get_edge_mask_unfold (mask : Image) (mask_width : Z) :
  get_edge_mask mask mask_width =
  (d <- dilate_mask mask (mask_width / 2) ;;
   e <- dilate_mask mask (- (mask_width / 2)) ;;
   Ok (fromarray (Np.mul_uint8 (Np.astype_uint8 (Np.xor d e)) 255)))%result.
Proof. reflexivity. Qed.

(** C10: whatever the libraries compute, an image returned by
    [get_edge_mask] is [Image.fromarray] of a [uint8] array whose every
    entry is 0 or 255. *)
Theorem get_edge_mask_binary :
  forall (mask : Image) (mask_width : Z) (im : Image),
    get_edge_mask mask mask_width = Ok im ->
    exists a : Np.array2 Z,
      im = fromarray a /\
      Np.all (fun v => (v =? 0) || (v =? 255)) a = true.
Proof.
  intros mask mask_width im H.
  rewrite get_edge_mask_unfold in H.
  destruct (dilate_mask mask (mask_width / 2)) as [d | ?]; simpl in H;
    [| discriminate H].
  destruct (dilate_mask mask (- (mask_width / 2))) as [e | ?]; simpl in H;
    [| discriminate H].
  injection H as <-.
  eexists. split; [reflexivity | apply edge_values_binary].
Qed.

(** SciPy refuses an empty structuring element
    ([RuntimeError: structure must not be empty]). *)
Hypothesis binary_dilation_empty :
  forall mask : Image, exists e, binary_dilation mask [] = Raise e.

(** C3: [get_edge_mask] returns an image exactly when both the dilation
    and the erosion of the mask by the kernel of amount [mask_width // 2]
    succeed, and the image is then their pixelwise XOR (scaled to 0/255);
    both operations get the same kernel, whose set cells are those within
    distance [center] of the cell [(center, center)]. *)
Theorem get_edge_mask_dilation_xor_erosion :
  forall (mask : Image) (mask_width : Z) (im : Image),
    let kernel := dilation_kernel (mask_width / 2) in
    let n := Z.to_nat (Z.abs (mask_width / 2)) in
    let center := Z.abs (mask_width / 2) / 2 in
    (get_edge_mask mask mask_width = Ok im <->
     exists d e,
       binary_dilation mask kernel = Ok d /\
       binary_erosion mask kernel = Ok e /\
       im = fromarray (Np.mul_uint8 (Np.astype_uint8 (Np.xor d e)) 255)) /\
    (forall i j : nat, (i < n)%nat -> (j < n)%nat ->
       Np.get kernel i j =
       Some (if (Z.of_nat j - center) ^ 2 + (Z.of_nat i - center) ^ 2
                <=? center ^ 2
             then 1 else 0)).
Proof.
  intros mask mask_width im kernel n center.
  split; [| intros i j Hi Hj; apply get_dilation_kernel; assumption].
  rewrite get_edge_mask_unfold, !dilate_mask_call, dilation_kernel_opp.
  fold kernel.
  destruct (Z.lt_trichotomy (mask_width / 2) 0) as [Hneg | [Hzero | Hpos]].
  - (* erosion first, then dilation: the XOR is the same *)
    replace (mask_width / 2 <? 0) with true by (symmetry; apply Z.ltb_lt; lia).
    replace (- (mask_width / 2) <? 0) with false
      by (symmetry; apply Z.ltb_ge; lia).
    destruct (binary_erosion mask kernel) as [e | xe];
      destruct (binary_dilation mask kernel) as [d | xd]; simpl.
    + rewrite xor_comm. split.
      * intros H. exists d, e. injection H as <-. auto.
      * intros (d' & e' & Hd & He & ->).
        injection Hd as <-. injection He as <-. reflexivity.
    + split; [discriminate | intros (d' & e' & Hd & _); discriminate Hd].
    + split; [discriminate | intros (d' & e' & _ & He & _); discriminate He].
    + split; [discriminate | intros (d' & e' & Hd & _); discriminate Hd].
  - (* amount 0: the kernel is empty and the library raises *)
    assert (Hk : kernel = []) by (unfold kernel; rewrite Hzero; reflexivity).
    rewrite Hk. destruct (binary_dilation_empty mask) as [x Hx].
    rewrite Hzero. simpl. rewrite Hx. simpl.
    split; [discriminate | intros (d' & e' & Hd & _); discriminate Hd].
  - replace (mask_width / 2 <? 0) with false by (symmetry; apply Z.ltb_ge; lia).
    replace (- (mask_width / 2) <? 0) with true
      by (symmetry; apply Z.ltb_lt; lia).
    destruct (binary_dilation mask kernel) as [d | xd];
      destruct (binary_erosion mask kernel) as [e | xe]; simpl.
    + split.
      * intros H. exists d, e. injection H as <-. auto.
      * intros (d' & e' & Hd & He & ->).
        injection Hd as <-. injection He as <-. reflexivity.
    + split; [discriminate | intros (d' & e' & _ & He & _); discriminate He].
    + split; [discriminate | intros (d' & e' & Hd & _); discriminate Hd].
    + split; [discriminate | intros (d' & e' & Hd & _); discriminate Hd].
Qed.

End EdgeMask.

(** ** Python strings *)

Lemma all_of_app (p : ascii -> bool) (a b : string) :
  all_of p (a ++ b) = all_of p a && all_of p b.
Proof.
  induction a as [| c a IH]; simpl; [reflexivity |].
  now rewrite IH, andb_assoc.
Qed.

Lemma all_of_none_of (p q : ascii -> bool) (s : string) :
  (forall c, p c = true -> q c = false) ->
  all_of p s = true -> PyStr.none_of q s = true.
Proof.
  intros Hpq. induction s as [| c s IH]; simpl; [reflexivity |].
  intros H. apply andb_true_iff in H as [Hc Hs].
  rewrite (Hpq c Hc), IH by assumption. reflexivity.
Qed.

Lemma is_numeric_not_space (c : ascii) :
  is_numeric c = true -> PyStr.isspace c = false.
Proof.
  destruct c as [[|] [|] [|] [|] [|] [|] [|] [|]]; vm_compute; congruence.
Qed.

Lemma is_numeric_not_x (c : ascii) : is_numeric c = true -> is_x c = false.
Proof.
  destruct c as [[|] [|] [|] [|] [|] [|] [|] [|]]; vm_compute; congruence.
Qed.

Lemma string_of_uint_numeric (d : Decimal.uint) :
  all_of is_numeric (NilEmpty.string_of_uint d) = true.
Proof.
  induction d; simpl; auto.
Qed.

Lemma str_numeric (n : Z) : all_of is_numeric (PyStr.str n) = true.
Proof.
  unfold PyStr.str, NilEmpty.string_of_int.
  destruct (Z.to_int n); simpl; apply string_of_uint_numeric.
Qed.

Lemma digits_string_of_uint (d : Decimal.uint) (after_digit : bool) :
  (d <> Decimal.Nil \/ after_digit = true) ->
  PyStr.digits after_digit (NilEmpty.string_of_uint d) = Some d.
Proof.
  revert after_digit.
  induction d; intros after_digit H; simpl;
    try (rewrite IHd by (right; reflexivity); reflexivity).
  destruct H as [H | ->]; [now elim H | reflexivity].
Qed.

(** ** [strip] and [split] *)

Lemma lstrip_none_of (s : string) :
  PyStr.none_of PyStr.isspace s = true -> PyStr.lstrip s = s.
Proof.
  destruct s as [| c s]; simpl; [reflexivity |].
  intros H. apply andb_true_iff in H as [Hc _].
  apply negb_true_iff in Hc. now rewrite Hc.
Qed.

Lemma rstrip_cons (c : ascii) (s : string) :
  PyStr.isspace c = false ->
  PyStr.rstrip (String c s) = String c (PyStr.rstrip s).
Proof.
  intros Hc. simpl. rewrite Hc. destruct (PyStr.rstrip s); reflexivity.
Qed.

Lemma rstrip_none_of (s : string) :
  PyStr.none_of PyStr.isspace s = true -> PyStr.rstrip s = s.
Proof.
  induction s as [| c s IH]; [reflexivity |].
  cbn [PyStr.none_of]. intros H. apply andb_true_iff in H as [Hc Hs].
  apply negb_true_iff in Hc.
  rewrite rstrip_cons, IH by assumption. reflexivity.
Qed.

Lemma strip_none_of (s : string) :
  PyStr.none_of PyStr.isspace s = true -> PyStr.strip s = s.
Proof.
  intros H. unfold PyStr.strip.
  rewrite (lstrip_none_of _ H). now apply rstrip_none_of.
Qed.

Lemma lstrip_idem (s : string) : PyStr.lstrip (PyStr.lstrip s) = PyStr.lstrip s.
Proof.
  induction s as [| c s IH]; [reflexivity |].
  simpl. destruct (PyStr.isspace c) eqn:Hc; [exact IH |].
  simpl. now rewrite Hc.
Qed.

Lemma rstrip_step (c : ascii) (s : string) :
  PyStr.rstrip (String c s) =
  match PyStr.rstrip s with
  | EmptyString => if PyStr.isspace c then EmptyString else String c EmptyString
  | r' => String c r'
  end.
Proof. reflexivity. Qed.

Lemma rstrip_idem (s : string) : PyStr.rstrip (PyStr.rstrip s) = PyStr.rstrip s.
Proof.
  induction s as [| c s IH]; [reflexivity |].
  rewrite rstrip_step.
  destruct (PyStr.rstrip s) as [| c' r'] eqn:Er.
  - destruct (PyStr.isspace c) eqn:Hc; [reflexivity |].
    simpl. now rewrite Hc.
  - rewrite rstrip_step, IH. reflexivity.
Qed.

Lemma lstrip_rstrip (s : string) :
  PyStr.lstrip (PyStr.rstrip s) = PyStr.rstrip (PyStr.lstrip s).
Proof.
  induction s as [| c s IH]; [reflexivity |].
  destruct (PyStr.isspace c) eqn:Hc.
  - cbn [PyStr.lstrip]. rewrite Hc, <- IH.
    cbn [PyStr.rstrip]. rewrite Hc.
    destruct (PyStr.rstrip s); [reflexivity |].
    cbn [PyStr.lstrip]. now rewrite Hc.
  - cbn [PyStr.lstrip]. rewrite Hc, rstrip_cons by assumption.
    cbn [PyStr.lstrip]. now rewrite Hc.
Qed.

Lemma strip_lstrip (s : string) : PyStr.strip (PyStr.lstrip s) = PyStr.strip s.
Proof. unfold PyStr.strip. now rewrite lstrip_idem. Qed.

Lemma strip_rstrip (s : string) : PyStr.strip (PyStr.rstrip s) = PyStr.strip s.
Proof. unfold PyStr.strip. now rewrite lstrip_rstrip, rstrip_idem. Qed.

Lemma int_lstrip (s : string) : PyStr.int (PyStr.lstrip s) = PyStr.int s.
Proof. unfold PyStr.int. now rewrite strip_lstrip. Qed.

Lemma int_rstrip (s : string) : PyStr.int (PyStr.rstrip s) = PyStr.int s.
Proof. unfold PyStr.int. now rewrite strip_rstrip. Qed.

Lemma lstrip_app_x (a b : string) :
  PyStr.lstrip (a ++ String "x" b) = PyStr.lstrip a ++ String "x" b.
Proof.
  induction a as [| c a IH]; [reflexivity |].
  simpl. destruct (PyStr.isspace c); [exact IH | reflexivity].
Qed.

Lemma rstrip_app_x (a b : string) :
  PyStr.rstrip (a ++ String "x" b) = a ++ String "x" (PyStr.rstrip b).
Proof.
  induction a as [| c a IH].
  - simpl (_ ++ _). now apply rstrip_cons.
  - change (PyStr.rstrip (String c (a ++ String "x" b))
            = String c (a ++ String "x" (PyStr.rstrip b))).
    cbn [PyStr.rstrip]. rewrite IH.
    destruct a; reflexivity.
Qed.

Lemma none_of_lstrip (p : ascii -> bool) (s : string) :
  PyStr.none_of p s = true -> PyStr.none_of p (PyStr.lstrip s) = true.
Proof.
  induction s as [| c s IH]; [reflexivity |].
  intros H. simpl. destruct (PyStr.isspace c); [| exact H].
  simpl in H. apply andb_true_iff in H as [_ Hs]. now apply IH.
Qed.

Lemma none_of_rstrip (p : ascii -> bool) (s : string) :
  PyStr.none_of p s = true -> PyStr.none_of p (PyStr.rstrip s) = true.
Proof.
  induction s as [| c s IH]; [reflexivity |].
  cbn [PyStr.none_of]. intros H. apply andb_true_iff in H as [Hc Hs].
  specialize (IH Hs). cbn [PyStr.rstrip].
  destruct (PyStr.rstrip s).
  - destruct (PyStr.isspace c); simpl; [reflexivity | now rewrite Hc].
  - cbn [PyStr.none_of]. cbn [PyStr.none_of] in IH. now rewrite Hc, IH.
Qed.

Lemma split_none_of (sep : ascii) (s : string) :
  PyStr.none_of (Ascii.eqb sep) s = true -> PyStr.split sep s = [s].
Proof.
  induction s as [| c s IH]; [reflexivity |].
  cbn [PyStr.none_of]. intros H. apply andb_true_iff in H as [Hc Hs].
  apply negb_true_iff in Hc. rewrite Ascii.eqb_sym in Hc.
  simpl. now rewrite Hc, (IH Hs).
Qed.

Lemma split_app (sep : ascii) (a b : string) :
  PyStr.none_of (Ascii.eqb sep) a = true ->
  PyStr.split sep (a ++ String sep b) = a :: PyStr.split sep b.
Proof.
  induction a as [| c a IH].
  - intros _. simpl. now rewrite Ascii.eqb_refl.
  - cbn [PyStr.none_of]. intros H. apply andb_true_iff in H as [Hc Ha].
    apply negb_true_iff in Hc. rewrite Ascii.eqb_sym in Hc.
    simpl. now rewrite Hc, (IH Ha).
Qed.

(** [int(str(n)) == n] *)
Lemma int_str (n : Z) : PyStr.int (PyStr.str n) = Ok n.
Proof.
  unfold PyStr.int.
  rewrite strip_none_of
    by (apply (all_of_none_of is_numeric); [apply is_numeric_not_space | apply str_numeric]).
  rewrite <- (DecimalZ.of_to n) at 2.
  unfold PyStr.str, NilEmpty.string_of_int.
  destruct n as [| p | p]; cbn [Z.to_int Z.of_int].
  - reflexivity.
  - pose proof (DecimalPos.Unsigned.to_uint_nonnil p) as Hnil.
    pose proof (digits_string_of_uint (Pos.to_uint p) false (or_introl Hnil)) as Hd.
    destruct (Pos.to_uint p) as [| | | | | | | | | |]; try (now elim Hnil);
      cbn [NilEmpty.string_of_uint] in *; rewrite Hd; reflexivity.
  - pose proof (DecimalPos.Unsigned.to_uint_nonnil p) as Hnil.
    cbn [append].
    rewrite (digits_string_of_uint (Pos.to_uint p) false (or_introl Hnil)).
    reflexivity.
Qed.

(** ** [process] *)

Section Process.
Context {Image Tensor : Type} {libs : Libs Image Tensor}.

Lemma str_no_x (n : Z) : PyStr.none_of is_x (PyStr.str n) = true.
Proof.
  apply (all_of_none_of is_numeric); [apply is_numeric_not_x | apply str_numeric].
Qed.

Lemma resolution_string_pieces (image : Image) (sw sh : string) :
  resolution_string image (sw ++ "x" ++ sh) = sw ++ "x" ++ sh.
Proof.
  unfold resolution_string. destruct sw; reflexivity.
Qed.

Lemma rmapM_pieces (image : Image) (sw sh : string) (W H : Z) :
  PyStr.none_of is_x sw = true -> PyStr.none_of is_x sh = true ->
  PyStr.int sw = Ok W -> PyStr.int sh = Ok H ->
  rmapM (fun reso => (v <- PyStr.int reso ;; Ok (v / 32 * 32))%result)
        (PyStr.split "x"%char (PyStr.strip (sw ++ "x" ++ sh)))
  = Ok [W / 32 * 32; H / 32 * 32].
Proof.
  intros Hsw Hsh HW HH.
  unfold PyStr.strip. cbn [append].
  rewrite lstrip_app_x, rstrip_app_x.
  rewrite split_app by (apply none_of_lstrip; exact Hsw).
  rewrite split_none_of by (apply none_of_rstrip; exact Hsh).
  cbn [rmapM]. rewrite int_lstrip, int_rstrip, HW, HH. reflexivity.
Qed.

Lemma image_resolution_pieces (image : Image) (sw sh : string) (W H : Z) :
  PyStr.none_of is_x sw = true -> PyStr.none_of is_x sh = true ->
  PyStr.int sw = Ok W -> PyStr.int sh = Ok H ->
  image_resolution image (sw ++ "x" ++ sh) = Ok [W / 32 * 32; H / 32 * 32].
Proof.
  intros. unfold image_resolution.
  rewrite resolution_string_pieces. now apply rmapM_pieces.
Qed.

Lemma image_resolution_empty (image : Image) :
  image_resolution image "" =
  Ok [width image / 32 * 32; height image / 32 * 32].
Proof.
  unfold image_resolution, resolution_string. cbn [String.eqb].
  apply rmapM_pieces; auto using str_no_x, int_str.
Qed.


Lemma flags_some (rm rf re : bool) :
  (rm || rf || re)%bool = true ->
  (negb rm && negb rf && negb re)%bool = false.
Proof. destruct rm, rf, re; simpl; congruence. Qed.


(** A call that gets past the guard and returns has made exactly three
    library calls, and its result is assembled from the resized mask. *)
Lemma process_inv (self : BiRefNetPipeline Tensor) (image : Image)
    (resolution : string) (rm rf re : bool) (w : Z) (t t' : trace)
    (r : option Image * option Image * option Image) :
  (rm || rf || re)%bool = true ->
  process self image resolution rm rf re w t = (Ok r, t') ->
  exists size pred_pil mask,
    image_resolution image resolution = Ok size /\
    image_resize pred_pil [width image; height image] = Ok mask /\
    t' = (t ++ [CallResize image size; CallModel;
                CallResize pred_pil [width image; height image]])%list /\
    fst (fst r) = (if rm then Some mask else None) /\
    (if rf then exists fg, snd (fst r) = Some fg else snd (fst r) = None) /\
    (if re then exists em, get_edge_mask mask w = Ok em /\ snd r = Some em
     else snd r = None).
Proof.
  intros Hflags H.
  unfold process in H. rewrite (flags_some _ _ _ Hflags) in H.
  unfold Eff.bind, Eff.lift, Eff.ret, call_resize, call_birefnet in H.
  destruct (image_resolution image resolution) as [size |]; [| discriminate H].
  destruct (image_resize image size) as [image_pil |]; [| discriminate H].
  destruct (transform_image image_pil) as [image_proc |]; [| discriminate H].
  destruct (to_device _ _) as [on_device |]; [| discriminate H].
  destruct (birefnet self on_device) as [preds |]; [| discriminate H].
  destruct (last_item preds) as [last_pred |]; [| discriminate H].
  destruct (getitem0 _) as [pred0 |]; [| discriminate H].
  destruct (to_pil_image _) as [pred_pil |]; [| discriminate H].
  destruct (image_resize pred_pil _) as [mask |] eqn:Hmask; [| discriminate H].
  exists size, pred_pil, mask.
  destruct rf.
  - destruct (refine_foreground image mask) as [fg |]; [| discriminate H].
    destruct (putalpha fg mask) as [fg' |]; [| discriminate H].
    destruct re.
    + destruct (get_edge_mask mask w) as [em |]; [| discriminate H].
      injection H as <- <-. rewrite <- !app_assoc.
      destruct rm; cbn; eauto 10.
    + injection H as <- <-. rewrite <- !app_assoc.
      destruct rm; cbn; eauto 10.
  - destruct re.
    + destruct (get_edge_mask mask w) as [em |]; [| discriminate H].
      injection H as <- <-. rewrite <- !app_assoc.
      destruct rm; cbn; eauto 10.
    + injection H as <- <-. rewrite <- !app_assoc.
      destruct rm; cbn; eauto 10.
Qed.

(** C1: a call with the three flags off returns [(None, None, None)] at
    once, the log of library calls untouched (no resize, no forward pass
    of the network); and whenever a call returns, each component of the
    triple is [None] exactly when its flag is off. *)
Theorem process_none_iff_flag_off :
  forall (self : BiRefNetPipeline Tensor) (image : Image) (resolution : string)
         (return_mask return_foreground return_edge_mask : bool)
         (edge_mask_width : Z) (t : trace),
    process self image resolution false false false edge_mask_width t
    = (Ok (None, None, None), t) /\
    (forall mask foreground edge_mask t',
        process self image resolution return_mask return_foreground
                return_edge_mask edge_mask_width t
        = (Ok (mask, foreground, edge_mask), t') ->
        (mask = None <-> return_mask = false) /\
        (foreground = None <-> return_foreground = false) /\
        (edge_mask = None <-> return_edge_mask = false)).
Proof.
  intros self image resolution rm rf re w t.
  split; [reflexivity |].
  intros m f e t' H.
  destruct (rm || rf || re)%bool eqn:Hflags.
  - apply process_inv in H as (size & pred_pil & mask & _ & _ & _ & Hm & Hf & He);
      [| exact Hflags].
    cbn [fst snd] in Hm, Hf, He.
    destruct rm, rf, re; subst;
      repeat match goal with
             | H : exists _, _ |- _ => destruct H
             | H : _ /\ _ |- _ => destruct H
             end; subst;
      repeat split; intros; congruence.
  - destruct rm, rf, re; try discriminate Hflags.
    cbn in H. injection H as <- <- <- <-.
    repeat split; reflexivity.
Qed.


(** C9: with an empty [resolution] the string read is
    "{image.width}x{image.height}", the call is the same as the call with
    that string, and the working resolution is the size of the image
    rounded down to multiples of 32. *)
Theorem process_empty_resolution :
  forall (self : BiRefNetPipeline Tensor) (image : Image)
         (return_mask return_foreground return_edge_mask : bool)
         (edge_mask_width : Z) (t : trace),
    let from_image := PyStr.str (width image) ++ "x" ++ PyStr.str (height image) in
    resolution_string image "" = from_image /\
    image_resolution image "" =
      Ok [width image / 32 * 32; height image / 32 * 32] /\
    process self image "" return_mask return_foreground return_edge_mask
            edge_mask_width t
    = process self image from_image return_mask return_foreground
              return_edge_mask edge_mask_width t.
Proof.
  intros self image rm rf re w t from_image.
  split; [reflexivity |].
  split; [apply image_resolution_empty |].
  unfold process.
  rewrite image_resolution_empty.
  unfold from_image.
  rewrite image_resolution_pieces
    with (W := width image) (H := height image);
    auto using str_no_x, int_str.
Qed.

(** Pillow's [resize] returns an image of the size asked for. *)
Hypothesis resize_size :
  forall (im im' : Image) (w h : Z),
    resize im w h = Ok im' -> image_size im' = (w, h).


End Process.

(** ** Runs on the reference instance *)


Lemma ref_binary_dilation_empty (mask : Ref.image) :
  exists e, Ref.ref_binary_dilation mask [] = Raise e.
Proof. eexists. reflexivity. Qed.

Lemma process_none_iff_flag_off_witness :
  (Ref.run_mask = None <-> true = false) /\
  (Ref.run_foreground = None <-> false = false) /\
  (Ref.run_edge_mask = None <-> true = false).
Proof.
  apply (proj2 (process_none_iff_flag_off (libs := Ref.ref_libs)
                  Ref.pipeline Ref.square ""
                  true false true 4 [])
               Ref.run_mask Ref.run_foreground Ref.run_edge_mask (snd Ref.run)).
  vm_compute. reflexivity.
Defined.



Lemma get_edge_mask_binary_witness :
  exists a : Np.array2 Z,
    Ref.square_edge = Ref.ref_fromarray a /\
    Np.all (fun v => (v =? 0) || (v =? 255)) a = true.
Proof.
  apply (get_edge_mask_binary (libs := Ref.ref_libs) Ref.square 4 Ref.square_edge).
  vm_compute. reflexivity.
Defined.

Lemma get_edge_mask_dilation_xor_erosion_witness :
  exists d e,
    Ref.ref_binary_dilation Ref.square (dilation_kernel 2) = Ok d /\
    Ref.ref_binary_erosion Ref.square (dilation_kernel 2) = Ok e /\
    Ref.square_edge =
    Ref.ref_fromarray (Np.mul_uint8 (Np.astype_uint8 (Np.xor d e)) 255).
Proof.
  apply (proj1 (proj1 (get_edge_mask_dilation_xor_erosion
                         (libs := Ref.ref_libs) ref_binary_dilation_empty
                         Ref.square 4 Ref.square_edge))).
  vm_compute. reflexivity.
Defined.

(** ** The download *)

Section DownloadFacts.
Context {W : Type} {os : OS W}.

(** A name outside the registry: [KeyError], nothing touched. *)
Lemma download_birefnet_model_unknown (model_name : string) (s : dstate) :
  dict_get usage_to_weights_file model_name = None ->
  download_birefnet_model model_name s = (Raise (KeyError model_name), s).
Proof.
  intros H. unfold download_birefnet_model, Eff.bind, Eff.lift, dict_getitem.
  rewrite H. reflexivity.
Qed.


End DownloadFacts.


(** * Further properties *)

(** ** [download_models] on any list of items *)

Lemma for_each_app {St A : Type} (body : A -> Eff.M St unit) (a b : list A)
    (s : St) :
  Eff.for_each body (a ++ b)%list s =
  match Eff.for_each body a s with
  | (Ok _, s1) => Eff.for_each body b s1
  | (Raise e, s1) => (Raise e, s1)
  end.
Proof.
  revert s. induction a as [| x a IH]; intros s; [reflexivity |].
  cbn [app Eff.for_each]. unfold Eff.bind.
  destruct (body x s) as [[[] | e] s1]; [apply IH | reflexivity].
Qed.

Section DownloadLoopFacts.
Context {W : Type} {os : OS W}.

Lemma download_models_loop (model_root : string)
    (model_urls : list (string * string)) (s : dstate) :
  download_models model_root model_urls s =
  (root_exists <- os_path_exists model_root ;;
   (if negb root_exists then os_makedirs model_root else Eff.ret tt) ;;;
   Eff.for_each (download_item model_root) model_urls)%eff s.
Proof. reflexivity. Qed.

(** What one item does: nothing when its file is there, one download
    otherwise. *)
Lemma download_item_cases (model_root : string) (item : string * string)
    (w : W) (log : list oscall) :
  let local_path := OsPath.join model_root [fst item] in
  download_item model_root item (w, log) =
  if path_exists local_path w then (Ok tt, (w, log))
  else
    let (r, w') := load_file_from_url (snd item) model_root (fst item) w in
    (match r with Ok _ => Ok tt | Raise e => Raise e end,
     (w', (log ++ [item_call model_root item])%list)).
Proof.
  destruct item as [local_file url]. cbn [fst snd].
  unfold download_item, Eff.bind, Eff.ret, os_path_exists,
    call_load_file_from_url, item_call.
  cbn [fst snd].
  destruct (path_exists _ w); cbn [negb fst snd]; [reflexivity |].
  destruct (load_file_from_url url model_root local_file w) as [[p | e] w'];
    reflexivity.
Qed.

Lemma download_loop_calls (model_root : string)
    (model_urls : list (string * string)) (w : W) (log : list oscall) :
  exists kept : list (string * string),
    snd (snd (Eff.for_each (download_item model_root) model_urls (w, log)))
    = (log ++ map (item_call model_root) kept)%list /\
    subseq kept model_urls.
Proof.
  revert w log.
  induction model_urls as [| item items IH]; intros w log.
  - exists []. cbn. rewrite app_nil_r. split; [reflexivity | constructor].
  - cbn [Eff.for_each]. unfold Eff.bind.
    rewrite download_item_cases. cbv zeta.
    destruct (path_exists _ w).
    + destruct (IH w log) as (kept & Hlog & Hsub).
      exists kept. split; [exact Hlog | now apply subseq_skip].
    + destruct (load_file_from_url _ _ _ w) as [[p | e] w'].
      * destruct (IH w' (log ++ [item_call model_root item])%list)
          as (kept & Hlog & Hsub).
        exists (item :: kept). rewrite Hlog, <- app_assoc.
        split; [reflexivity | now apply subseq_take].
      * exists [item]. cbn [snd map].
        split; [reflexivity | apply subseq_take, subseq_nil].
Qed.

(** X2: whatever the file system answers, [download_models] logs at most
    one [makedirs], first and only when the directory is missing, and then
    only downloads into [model_root] of items of [model_urls], in the order
    of the list and each item at most once. *)
Theorem download_models_calls :
  forall (model_root : string) (model_urls : list (string * string))
         (w : W) (log : list oscall),
    exists kept : list (string * string),
      snd (snd (download_models model_root model_urls (w, log)))
      = (log ++ (if path_exists model_root w then [] else [Makedirs model_root])
             ++ map (item_call model_root) kept)%list /\
      subseq kept model_urls.
Proof.
  intros model_root model_urls w log.
  rewrite download_models_loop.
  unfold Eff.bind, Eff.ret, os_path_exists, os_makedirs. cbn [fst snd].
  destruct (path_exists model_root w); cbn [negb fst snd].
  - apply download_loop_calls.
  - destruct (makedirs model_root w) as [[[] | e] w1]; cbn [fst snd].
    + destruct (download_loop_calls model_root model_urls w1
                  (log ++ [Makedirs model_root])%list)
        as (kept & Hlog & Hsub).
      exists kept. rewrite Hlog, <- app_assoc. auto.
    + exists []. cbn [snd map]. rewrite app_nil_r.
      split; [reflexivity | constructor].
Qed.

(** X3: an exception ends the loop.  When [download_models] raises on a
    list of items, it raises the same exception in the same state on any
    longer list that starts with these items: nothing after the failing
    item is looked at.  When it returns, the longer list continues from
    the state reached. *)
Theorem download_models_stops_at_raise :
  forall (model_root : string) (done rest : list (string * string))
         (s s' : dstate),
    (forall e, download_models model_root done s = (Raise e, s') ->
               download_models model_root (done ++ rest)%list s = (Raise e, s')) /\
    (download_models model_root done s = (Ok tt, s') ->
     download_models model_root (done ++ rest)%list s
     = Eff.for_each (download_item model_root) rest s').
Proof.
  intros model_root done rest s s'.
  rewrite !download_models_loop.
  unfold Eff.bind.
  destruct (os_path_exists model_root s) as [[b | e0] s0].
  - destruct ((if negb b then os_makedirs model_root else Eff.ret tt) s0)
      as [[[] | e1] s1].
    + rewrite for_each_app.
      split.
      * intros e H. rewrite H. reflexivity.
      * intros H. rewrite H. reflexivity.
    + split; [intros e H; exact H | intros H; discriminate H].
  - split; [intros e H; exact H | intros H; discriminate H].
Qed.

End DownloadLoopFacts.

Lemma download_models_stops_at_raise_witness :
  download_models (os := Offline.offline_os) "/srv/webui/models/birefnet"
    ([("a.safetensors", "https://example.org/a")]
       ++ [("b.safetensors", "https://example.org/b")])%list
    (["/srv/webui/models/birefnet"], [])
  = (Raise (OtherError "network unreachable"),
     (["/srv/webui/models/birefnet"],
      [LoadFileFromUrl "https://example.org/a" "/srv/webui/models/birefnet"
         "a.safetensors"])) /\
  download_models (os := Ref.ref_os) "/srv/webui/models/birefnet"
    ([("a.safetensors", "https://example.org/a")]
       ++ [("b.safetensors", "https://example.org/b")])%list
    (["/srv/webui/models/birefnet"], [])
  = Eff.for_each (download_item (os := Ref.ref_os) "/srv/webui/models/birefnet")
      [("b.safetensors", "https://example.org/b")]
      (["/srv/webui/models/birefnet/a.safetensors"; "/srv/webui/models/birefnet"],
       [LoadFileFromUrl "https://example.org/a" "/srv/webui/models/birefnet"
          "a.safetensors"]).
Proof.
  split.
  - apply (proj1 (download_models_stops_at_raise (os := Offline.offline_os)
                    "/srv/webui/models/birefnet"
                    [("a.safetensors", "https://example.org/a")]
                    [("b.safetensors", "https://example.org/b")]
                    (["/srv/webui/models/birefnet"], []) _)).
    reflexivity.
  - apply (proj2 (download_models_stops_at_raise (os := Ref.ref_os)
                    "/srv/webui/models/birefnet"
                    [("a.safetensors", "https://example.org/a")]
                    [("b.safetensors", "https://example.org/b")]
                    (["/srv/webui/models/birefnet"], []) _)).
    reflexivity.
Defined.

(** ** Downloading twice *)

Section DownloadTwice.
Context {W : Type} {os : OS W}.

(** A download that succeeds leaves its file in place and removes
    nothing. *)
Hypothesis load_creates :
  forall (url model_dir file_name p : string) (w w' : W),
    load_file_from_url url model_dir file_name w = (Ok p, w') ->
    path_exists (OsPath.join model_dir [file_name]) w' = true /\
    forall q, path_exists q w = true -> path_exists q w' = true.

(** [os.makedirs] that succeeds leaves the directory in place. *)
Hypothesis makedirs_creates :
  forall (path : string) (w w' : W),
    makedirs path w = (Ok tt, w') -> path_exists path w' = true.

Lemma download_loop_present (model_root : string)
    (model_urls : list (string * string)) (w : W) (log : list oscall) :
  Forall (fun item => path_exists (OsPath.join model_root [fst item]) w = true)
         model_urls ->
  Eff.for_each (download_item model_root) model_urls (w, log) = (Ok tt, (w, log)).
Proof.
  induction 1 as [| item items Hitem _ IH]; [reflexivity |].
  cbn [Eff.for_each]. unfold Eff.bind.
  rewrite download_item_cases. cbv zeta. rewrite Hitem. exact IH.
Qed.

Lemma download_loop_leaves (model_root : string)
    (model_urls : list (string * string)) (w w' : W) (log log' : list oscall) :
  Eff.for_each (download_item model_root) model_urls (w, log) = (Ok tt, (w', log')) ->
  (forall q, path_exists q w = true -> path_exists q w' = true) /\
  Forall (fun item => path_exists (OsPath.join model_root [fst item]) w' = true)
         model_urls.
Proof.
  revert w log.
  induction model_urls as [| item items IH]; intros w log H.
  - cbn in H. injection H as <- <-. split; [auto | constructor].
  - cbn [Eff.for_each] in H. unfold Eff.bind in H.
    rewrite download_item_cases in H. cbv zeta in H.
    destruct (path_exists _ w) eqn:Hitem.
    + destruct (IH _ _ H) as [Hkeep Hall].
      split; [exact Hkeep | constructor; auto].
    + destruct (load_file_from_url _ _ _ w) as [[p | e] w1] eqn:Hload;
        [| discriminate H].
      destruct (load_creates _ _ _ _ _ _ Hload) as [Hnew Hold].
      destruct (IH _ _ H) as [Hkeep Hall].
      split; [auto | constructor; auto].
Qed.

Lemma download_models_again (model_root : string)
    (model_urls : list (string * string)) (s s' : dstate) :
  download_models model_root model_urls s = (Ok tt, s') ->
  download_models model_root model_urls s' = (Ok tt, s').
Proof.
  destruct s as [w log], s' as [w' log'].
  rewrite !download_models_loop.
  unfold Eff.bind, Eff.ret, os_path_exists, os_makedirs. cbn [fst snd].
  intros H.
  assert (Hend : path_exists model_root w' = true /\
                 Forall (fun item =>
                           path_exists (OsPath.join model_root [fst item]) w' = true)
                        model_urls).
  { destruct (path_exists model_root w) eqn:Hroot; cbn [negb fst snd] in H.
    - destruct (download_loop_leaves _ _ _ _ _ _ H) as [Hkeep Hall]. auto.
    - destruct (makedirs model_root w) as [[[] | e] w1] eqn:Hmk;
        cbn [fst snd] in H; [| discriminate H].
      destruct (download_loop_leaves _ _ _ _ _ _ H) as [Hkeep Hall].
      split; [| exact Hall].
      apply Hkeep. now apply (makedirs_creates _ w). }
  destruct Hend as [Hroot Hall].
  rewrite Hroot. cbn [negb]. now apply download_loop_present.
Qed.

(** X4: on a file system where a successful download leaves its file in
    place and removes nothing, and a successful [makedirs] leaves its
    directory, a call that returned makes the next call a no-op: run again
    in the state it left, [download_models] (and so
    [download_birefnet_model]) returns with nothing called and nothing
    changed. *)
Theorem download_again_is_noop :
  forall (model_name : string) (model_root : string)
         (model_urls : list (string * string)) (s s' : dstate),
    (download_models model_root model_urls s = (Ok tt, s') ->
     download_models model_root model_urls s' = (Ok tt, s')) /\
    (download_birefnet_model model_name s = (Ok tt, s') ->
     download_birefnet_model model_name s' = (Ok tt, s')).
Proof.
  intros model_name model_root model_urls s s'.
  split; [apply download_models_again |].
  unfold download_birefnet_model, Eff.bind, Eff.lift.
  destruct (dict_getitem usage_to_weights_file model_name) as [weights | e];
    [apply download_models_again | discriminate].
Qed.

End DownloadTwice.

Lemma ref_load_creates :
  forall (url model_dir file_name p : string) (w w' : Ref.fs),
    load_file_from_url (OS := Ref.ref_os) url model_dir file_name w = (Ok p, w') ->
    path_exists (OS := Ref.ref_os) (OsPath.join model_dir [file_name]) w' = true /\
    forall q, path_exists (OS := Ref.ref_os) q w = true ->
              path_exists (OS := Ref.ref_os) q w' = true.
Proof.
  intros url model_dir file_name p w w' H. cbn in *.
  injection H as _ <-.
  destruct (Ref.present (OsPath.join2 model_dir file_name) w) eqn:E.
  - auto.
  - split.
    + unfold Ref.present. cbn [existsb]. now rewrite String.eqb_refl.
    + intros q Hq. unfold Ref.present in *. cbn [existsb].
      rewrite Hq. apply orb_true_r.
Qed.

Lemma ref_makedirs_creates :
  forall (path : string) (w w' : Ref.fs),
    makedirs (OS := Ref.ref_os) path w = (Ok tt, w') ->
    path_exists (OS := Ref.ref_os) path w' = true.
Proof.
  intros path w w' H. cbn in *. injection H as <-.
  destruct (Ref.present path w) eqn:E; [exact E |].
  unfold Ref.present. cbn [existsb]. now rewrite String.eqb_refl.
Qed.

Lemma download_again_is_noop_witness :
  download_birefnet_model (os := Ref.ref_os) "Portrait"
    (["/srv/webui/models/birefnet/Portrait.safetensors";
      "/srv/webui/models/birefnet"],
     [Makedirs "/srv/webui/models/birefnet";
      LoadFileFromUrl
        "https://huggingface.co/ZhengPeng7/BiRefNet-portrait/resolve/main/model.safetensors"
        "/srv/webui/models/birefnet" "Portrait.safetensors"])
  = (Ok tt,
     (["/srv/webui/models/birefnet/Portrait.safetensors";
       "/srv/webui/models/birefnet"],
      [Makedirs "/srv/webui/models/birefnet";
       LoadFileFromUrl
         "https://huggingface.co/ZhengPeng7/BiRefNet-portrait/resolve/main/model.safetensors"
         "/srv/webui/models/birefnet" "Portrait.safetensors"])).
Proof.
  apply (proj2 (download_again_is_noop (os := Ref.ref_os)
                  ref_load_creates ref_makedirs_creates
                  "Portrait" "" [] ([], []) _)).
  reflexivity.
Defined.

(** ** Names, cache files and weights *)

Lemma registry_key_is_literal (key weights : string) :
  dict_get usage_to_weights_file key = Some weights ->
  exists m : BiRefNetModelName, model_name_str m = key.
Proof.
  unfold usage_to_weights_file. cbn [dict_get].
  repeat match goal with
         | |- context [String.eqb ?k key] =>
             let E := fresh "E" in
             destruct (String.eqb k key) eqn:E;
             [ apply String.eqb_eq in E; intros _; subst key;
               first [ now exists General | now exists General_HR
                     | now exists General_Lite | now exists General_Lite_2K
                     | now exists Portrait | now exists Matting
                     | now exists Matting_HR | now exists Matting_Lite
                     | now exists Anime_Lite | now exists Dynamic
                     | now exists DIS | now exists HRSOD
                     | now exists COD | now exists DIS_TR_TEs ]
             | clear E ]
         end.
  discriminate.
Qed.

(** X1: a model name that is none of the literals of [BiRefNetModelName]
    makes [download_birefnet_model] raise [KeyError] with that name, before
    anything is asked of the file system and with nothing logged. *)
Theorem download_birefnet_model_unlisted_name :
  forall (W : Type) (os : OS W) (model_name : string) (s : dstate),
    (forall m : BiRefNetModelName, model_name_str m <> model_name) ->
    download_birefnet_model model_name s = (Raise (KeyError model_name), s).
Proof.
  intros W os model_name s Hnot.
  unfold download_birefnet_model, Eff.bind, Eff.lift, dict_getitem.
  destruct (dict_get usage_to_weights_file model_name) as [weights |] eqn:E;
    [| reflexivity].
  destruct (registry_key_is_literal _ _ E) as [m Hm].
  now elim (Hnot m).
Qed.

Lemma download_birefnet_model_unlisted_name_witness :
  download_birefnet_model (os := Ref.ref_os) "general" ([], [])
  = (Raise (KeyError "general"), ([], [])).
Proof.
  apply (download_birefnet_model_unlisted_name Ref.fs Ref.ref_os "general" ([], [])).
  intros m. destruct m; discriminate.
Defined.

Lemma append_inj_l (a b c : string) : a ++ b = a ++ c -> b = c.
Proof.
  induction a as [| x a IH]; cbn; [auto |].
  intros H. injection H as H. auto.
Qed.

Lemma length_append (a b : string) :
  String.length (a ++ b) = (String.length a + String.length b)%nat.
Proof.
  induction a as [| x a IH]; cbn; [reflexivity | now rewrite IH].
Qed.

Lemma append_inj_r (a b s : string) : a ++ s = b ++ s -> a = b.
Proof.
  revert b. induction a as [| x a IH]; intros [| y b] H.
  - reflexivity.
  - apply (f_equal String.length) in H. cbn in H.
    rewrite length_append in H. lia.
  - apply (f_equal String.length) in H. cbn in H.
    rewrite length_append in H. lia.
  - cbn in H. injection H as -> H. f_equal. auto.
Qed.

Lemma startswith_slash_append (a s : string) :
  OsPath.startswith_slash a = false ->
  OsPath.startswith_slash s = false ->
  OsPath.startswith_slash (a ++ s) = false.
Proof.
  destruct a as [| c a]; cbn [append]; [auto |].
  intros H _. exact H.
Qed.

Lemma endswith_slash_append (p s : string) :
  s <> "" -> OsPath.endswith_slash (p ++ s) = OsPath.endswith_slash s.
Proof.
  intros Hs. induction p as [| c p IH]; [reflexivity |].
  cbn [append]. rewrite <- IH.
  destruct (p ++ s) eqn:E; [| reflexivity].
  destruct p; cbn in E; [now elim Hs | discriminate E].
Qed.

Section Paths.
Context {W : Type} {os : OS W}.

(** The directory of the cache never ends in a separator and is never
    empty. *)
Lemma model_root_shape :
  let model_root := OsPath.join models_path ["birefnet"] in
  OsPath.endswith_slash model_root = false /\ String.eqb model_root "" = false.
Proof.
  cbn [OsPath.join fold_left]. unfold OsPath.join2.
  cbn [OsPath.startswith_slash].
  assert (Hne : "birefnet" <> "") by discriminate.
  destruct (String.eqb models_path "" || OsPath.endswith_slash models_path)%bool.
  - rewrite endswith_slash_append by exact Hne.
    split; [reflexivity |]. destruct models_path; reflexivity.
  - change (models_path ++ "/" ++ "birefnet") with (models_path ++ "/birefnet").
    rewrite endswith_slash_append by discriminate.
    split; [reflexivity |]. destruct models_path; reflexivity.
Qed.

Lemma get_model_path_relative (model_name : string) :
  OsPath.startswith_slash model_name = false ->
  get_model_path model_name
  = OsPath.join models_path ["birefnet"] ++ "/" ++ model_name ++ ".safetensors".
Proof.
  intros Hrel.
  destruct model_root_shape as [Hend Hne].
  unfold get_model_path. cbn [OsPath.join fold_left] in *.
  unfold OsPath.join2 at 1.
  rewrite (startswith_slash_append _ _ Hrel) by reflexivity.
  rewrite Hend, Hne. reflexivity.
Qed.

(** X5: [get_model_path] puts the file of a relative model name directly
    under [models_path/birefnet], as ["{model_name}.safetensors"] after one
    separator; a model name that starts with a slash escapes the
    directory: the path is the name itself with the extension, and
    [models_path] plays no part. *)
Theorem get_model_path_under_models_path :
  forall model_name : string,
    (OsPath.startswith_slash model_name = false ->
     get_model_path model_name
     = OsPath.join models_path ["birefnet"] ++ "/" ++ model_name ++ ".safetensors") /\
    (OsPath.startswith_slash model_name = true ->
     get_model_path model_name = model_name ++ ".safetensors").
Proof.
  intros model_name. split; [apply get_model_path_relative |].
  intros Habs. unfold get_model_path. cbn [OsPath.join fold_left].
  unfold OsPath.join2 at 1.
  destruct model_name as [| c rest]; [discriminate Habs |].
  cbn [append]. cbn [append] in Habs.
  change (OsPath.startswith_slash (String c (rest ++ ".safetensors")))
    with (OsPath.startswith_slash (String c rest)).
  rewrite Habs. reflexivity.
Qed.

Lemma get_model_path_inj (a b : string) :
  OsPath.startswith_slash a = false ->
  OsPath.startswith_slash b = false ->
  get_model_path a = get_model_path b -> a = b.
Proof.
  intros Ha Hb H.
  rewrite (get_model_path_relative _ Ha), (get_model_path_relative _ Hb) in H.
  apply append_inj_l in H. apply append_inj_l in H.
  now apply append_inj_r in H.
Qed.

(** X6: the cache is keyed by the model name: two relative model names
    with the same cache file are the same name. *)
Theorem get_model_path_injective :
  forall a b : string,
    OsPath.startswith_slash a = false ->
    OsPath.startswith_slash b = false ->
    get_model_path a = get_model_path b -> a = b.
Proof. exact get_model_path_inj. Qed.

(** X7: two different names of [BiRefNetModelName] have different entries
    in the registry, so different download URLs, and different cache
    files. *)
Theorem model_names_do_not_collide :
  forall m1 m2 : BiRefNetModelName,
    m1 <> m2 ->
    dict_get usage_to_weights_file (model_name_str m1)
      <> dict_get usage_to_weights_file (model_name_str m2) /\
    (forall w1 w2,
        dict_get usage_to_weights_file (model_name_str m1) = Some w1 ->
        dict_get usage_to_weights_file (model_name_str m2) = Some w2 ->
        weights_url w1 <> weights_url w2) /\
    get_model_path (model_name_str m1) <> get_model_path (model_name_str m2).
Proof.
  intros m1 m2 Hne.
  assert (Hw : dict_get usage_to_weights_file (model_name_str m1)
               <> dict_get usage_to_weights_file (model_name_str m2)).
  { intros H. apply Hne. destruct m1, m2; try reflexivity; discriminate H. }
  split; [exact Hw | split].
  - intros w1 w2 H1 H2 Hurl. apply Hw. rewrite H1, H2. f_equal.
    unfold weights_url in Hurl.
    apply append_inj_l in Hurl. now apply append_inj_r in Hurl.
  - intros H. apply Hne.
    apply get_model_path_inj in H;
      [| destruct m1; reflexivity | destruct m2; reflexivity].
    destruct m1, m2; try reflexivity; discriminate H.
Qed.

End Paths.

Lemma get_model_path_under_models_path_witness :
  get_model_path (os := Ref.ref_os) "/tmp/evil" = "/tmp/evil.safetensors" /\
  get_model_path (os := Ref.ref_os) "HRSOD"
  = "/srv/webui/models/birefnet/HRSOD.safetensors".
Proof.
  split.
  - apply (proj2 (get_model_path_under_models_path (os := Ref.ref_os) "/tmp/evil")).
    reflexivity.
  - apply (proj1 (get_model_path_under_models_path (os := Ref.ref_os) "HRSOD")).
    reflexivity.
Defined.

Lemma get_model_path_injective_witness : "COD" = "COD".
Proof.
  apply (get_model_path_injective (os := Ref.ref_os) "COD" "COD");
    reflexivity.
Defined.

Lemma model_names_do_not_collide_witness :
  get_model_path (os := Ref.ref_os) "General"
  <> get_model_path (os := Ref.ref_os) "General-HR".
Proof.
  refine (proj2 (proj2 (model_names_do_not_collide (os := Ref.ref_os)
                          General General_HR _))).
  discriminate.
Defined.

(** ** The disc *)

(** X8: for every amount, even or odd, the kernel is invariant under
    point reflection about the cell [(center, center)], [center] being
    [|amt| // 2]: two cells of the grid whose rows add up to [2 * center]
    and whose columns add up to [2 * center] hold the same value.  (For an
    even amount row 0 and column 0 have no mirror image in the grid.) *)
Theorem dilation_kernel_reflected_about_center :
  forall (amt : Z) (i j i' j' : nat),
    let n := Z.to_nat (Z.abs amt) in
    let center := Z.abs amt / 2 in
    (i < n)%nat -> (j < n)%nat -> (i' < n)%nat -> (j' < n)%nat ->
    Z.of_nat i + Z.of_nat i' = 2 * center ->
    Z.of_nat j + Z.of_nat j' = 2 * center ->
    Np.get (dilation_kernel amt) i j = Np.get (dilation_kernel amt) i' j'.
Proof.
  intros amt i j i' j' n center Hi Hj Hi' Hj' Hrow Hcol.
  rewrite !get_dilation_kernel by assumption.
  fold center.
  replace (Z.of_nat j' - center) with (- (Z.of_nat j - center)) by lia.
  replace (Z.of_nat i' - center) with (- (Z.of_nat i - center)) by lia.
  rewrite !Z.pow_2_r, !Z.mul_opp_opp. reflexivity.
Qed.

Lemma dilation_kernel_reflected_about_center_witness :
  Np.get (dilation_kernel 4) 1 3 = Np.get (dilation_kernel 4) 3 1.
Proof.
  apply (dilation_kernel_reflected_about_center 4 1 3 3 1);
    vm_compute; (reflexivity || lia).
Defined.

Lemma length_arange (n : Z) : length (Np.arange n) = Z.to_nat n.
Proof. unfold Np.arange. now rewrite length_map, length_seq. Qed.

(** X9: the kernel of [dilate_mask] is a square of [|amt|] rows of
    [|amt|] cells holding 0 or 1; the row and the column through the
    centre are set from end to end, and from amount 2 on the corner cell
    [(0, 0)] is not set: a disc of radius [|amt| // 2], not a full
    square. *)
Theorem dilation_kernel_shape :
  forall amt : Z,
    let n := Z.to_nat (Z.abs amt) in
    let center := Z.to_nat (Z.abs amt / 2) in
    length (dilation_kernel amt) = n /\
    Forall (fun row => length row = n) (dilation_kernel amt) /\
    Np.all (fun v => (v =? 0) || (v =? 1)) (dilation_kernel amt) = true /\
    (forall i : nat, (i < n)%nat ->
       Np.get (dilation_kernel amt) center i = Some 1 /\
       Np.get (dilation_kernel amt) i center = Some 1) /\
    ((2 <= n)%nat -> Np.get (dilation_kernel amt) 0 0 = Some 0).
Proof.
  intros amt n center.
  assert (Ha : 0 <= Z.abs amt) by apply Z.abs_nonneg.
  assert (Hc : 0 <= Z.abs amt / 2) by (apply Z.div_pos; lia).
  assert (Hc2 : 2 * (Z.abs amt / 2) <= Z.abs amt < 2 * (Z.abs amt / 2) + 2).
  { pose proof (Z.div_mod (Z.abs amt) 2 ltac:(lia)).
    pose proof (Z.mod_pos_bound (Z.abs amt) 2 ltac:(lia)). lia. }
  split; [| split; [| split; [| split]]].
  - rewrite dilation_kernel_rows, length_map. apply length_arange.
  - rewrite dilation_kernel_rows. apply Forall_forall.
    intros row Hrow. apply in_map_iff in Hrow as (i & <- & _).
    rewrite length_map. apply length_arange.
  - rewrite dilation_kernel_rows. unfold Np.all.
    apply forallb_forall. intros row Hrow.
    apply in_map_iff in Hrow as (i & <- & _).
    apply forallb_forall. intros v Hv.
    apply in_map_iff in Hv as (j & <- & _).
    destruct (_ <=? _); reflexivity.
  - intros i Hi.
    assert (Hcn : (center < n)%nat) by (unfold center, n in *; lia).
    rewrite !get_dilation_kernel by assumption.
    unfold center. rewrite Z2Nat.id by exact Hc.
    set (c := Z.abs amt / 2) in *.
    assert (Hi' : - c <= Z.of_nat i - c <= c) by (unfold n in Hi; lia).
    replace (c - c) with 0 by lia.
    split.
    + replace (_ <=? _) with true; [reflexivity |].
      symmetry. apply Z.leb_le. nia.
    + replace (_ <=? _) with true; [reflexivity |].
      symmetry. apply Z.leb_le. nia.
  - intros Hn.
    rewrite get_dilation_kernel by (fold n; lia).
    set (c := Z.abs amt / 2) in *.
    assert (Hc1 : 1 <= c) by (unfold n in Hn; lia).
    replace (_ <=? _) with false; [reflexivity |].
    symmetry. apply Z.leb_gt. cbn [Z.of_nat]. nia.
Qed.

Lemma dilation_kernel_shape_witness :
  Np.get (dilation_kernel (-5)) 2 4 = Some 1 /\
  Np.get (dilation_kernel (-5)) 4 2 = Some 1.
Proof.
  apply (proj1 (proj2 (proj2 (proj2 (dilation_kernel_shape (-5))))) 4%nat).
  vm_compute. lia.
Defined.

(** ** More on the edge mask *)

Section EdgeMaskMore.
Context {Image Tensor : Type} {libs : Libs Image Tensor}.

(** For an amount other than 0, without any assumption on the library. *)
Lemma get_edge_mask_returns (mask : Image) (mask_width : Z) (im : Image) :
  mask_width / 2 <> 0 ->
  (get_edge_mask mask mask_width = Ok im <->
   exists d e,
     binary_dilation mask (dilation_kernel (mask_width / 2)) = Ok d /\
     binary_erosion mask (dilation_kernel (mask_width / 2)) = Ok e /\
     im = fromarray (Np.mul_uint8 (Np.astype_uint8 (Np.xor d e)) 255)).
Proof.
  intros Hamt.
  rewrite get_edge_mask_unfold, !dilate_mask_call, dilation_kernel_opp.
  set (kernel := dilation_kernel (mask_width / 2)).
  destruct (Z.ltb_spec (mask_width / 2) 0) as [Hneg | Hpos].
  - replace (- (mask_width / 2) <? 0) with false
      by (symmetry; apply Z.ltb_ge; lia).
    destruct (binary_erosion mask kernel) as [e | xe];
      destruct (binary_dilation mask kernel) as [d | xd]; cbn [rbind];
      try (split; [discriminate | intros (d' & e' & Hd & He & _); discriminate]).
    rewrite xor_comm. split.
    + intros H. exists d, e. injection H as <-. auto.
    + intros (d' & e' & Hd & He & ->).
      injection Hd as <-. injection He as <-. reflexivity.
  - replace (- (mask_width / 2) <? 0) with true
      by (symmetry; apply Z.ltb_lt; lia).
    destruct (binary_dilation mask kernel) as [d | xd];
      destruct (binary_erosion mask kernel) as [e | xe]; cbn [rbind];
      try (split; [discriminate | intros (d' & e' & Hd & He & _); discriminate]).
    split.
    + intros H. exists d, e. injection H as <-. auto.
    + intros (d' & e' & Hd & He & ->).
      injection Hd as <-. injection He as <-. reflexivity.
Qed.

(** X11: the sign of the width plays no part.  Two widths whose halves
    [mask_width // 2] are opposite (4 and -4, or 5 and -3) make
    [get_edge_mask] return the same image, or both fail to return one. *)
Theorem get_edge_mask_opposite_widths :
  forall (mask : Image) (w w' : Z) (im : Image),
    w' / 2 = - (w / 2) ->
    (get_edge_mask mask w = Ok im <-> get_edge_mask mask w' = Ok im).
Proof.
  intros mask w w' im Hopp.
  destruct (Z.eq_dec (w / 2) 0) as [Hzero | Hnz].
  - rewrite !get_edge_mask_unfold, Hopp, Hzero. reflexivity.
  - rewrite (get_edge_mask_returns mask w im Hnz).
    rewrite (get_edge_mask_returns mask w' im) by lia.
    rewrite Hopp, dilation_kernel_opp. reflexivity.
Qed.

(** SciPy refuses an empty structuring element. *)
Hypothesis binary_dilation_empty :
  forall mask : Image, exists e, binary_dilation mask [] = Raise e.

Lemma get_edge_mask_narrow (mask : Image) (mask_width : Z) :
  0 <= mask_width <= 1 -> exists e, get_edge_mask mask mask_width = Raise e.
Proof.
  intros Hw.
  assert (Hamt : mask_width / 2 = 0) by (apply Z.div_small; lia).
  rewrite get_edge_mask_unfold, Hamt, dilate_mask_call. cbn [Z.ltb Z.compare].
  change (dilation_kernel 0) with (@nil (list Z)).
  destruct (binary_dilation_empty mask) as [e He].
  exists e. rewrite He. reflexivity.
Qed.

(** X10: an edge mask of width 0 or 1 cannot be had.  The kernel is then
    empty, the library refuses it, and [get_edge_mask] raises; a call of
    [process] that asks for such an edge mask never returns a result,
    whatever else it was asked for. *)
Theorem edge_mask_width_below_2_raises :
  forall (self : BiRefNetPipeline Tensor) (image mask : Image)
         (resolution : string) (return_mask return_foreground : bool)
         (edge_mask_width : Z) (t : trace),
    0 <= edge_mask_width <= 1 ->
    (exists e, get_edge_mask mask edge_mask_width = Raise e) /\
    (exists e, fst (process self image resolution return_mask return_foreground
                            true edge_mask_width t) = Raise e).
Proof.
  intros self image mask resolution rm rf w t Hw.
  split; [now apply get_edge_mask_narrow |].
  unfold process.
  replace (negb rm && negb rf && negb true)%bool with false
    by (destruct rm, rf; reflexivity).
  unfold Eff.bind, Eff.lift, Eff.ret, call_resize, call_birefnet.
  repeat match goal with
         | |- context [match ?x with Ok _ => _ | Raise _ => _ end] =>
             lazymatch x with
             | get_edge_mask _ _ => fail
             | _ => destruct x; cbn [fst snd]; [| eexists; reflexivity]
             end
         end.
  destruct rf.
  - destruct (refine_foreground _ _); cbn [fst snd]; [| eexists; reflexivity].
    destruct (putalpha _ _); cbn [fst snd]; [| eexists; reflexivity].
    match goal with
    | |- context [get_edge_mask ?m w] =>
        destruct (get_edge_mask_narrow m w Hw) as [e He]; rewrite He
    end.
    eexists; reflexivity.
  - cbn [fst snd].
    match goal with
    | |- context [get_edge_mask ?m w] =>
        destruct (get_edge_mask_narrow m w Hw) as [e He]; rewrite He
    end.
    eexists; reflexivity.
Qed.

End EdgeMaskMore.

Lemma get_edge_mask_opposite_widths_witness :
  get_edge_mask (libs := Ref.ref_libs) Ref.square 4 = Ok Ref.square_edge <->
  get_edge_mask (libs := Ref.ref_libs) Ref.square (-3) = Ok Ref.square_edge.
Proof.
  apply (get_edge_mask_opposite_widths (libs := Ref.ref_libs)
           Ref.square 4 (-3) Ref.square_edge).
  reflexivity.
Defined.

Lemma edge_mask_width_below_2_raises_witness :
  exists e,
    fst (process (libs := Ref.ref_libs) Ref.pipeline Ref.square "" true false
                 true 1 []) = Raise e.
Proof.
  refine (proj2 (edge_mask_width_below_2_raises (libs := Ref.ref_libs)
                   ref_binary_dilation_empty Ref.pipeline Ref.square Ref.square
                   "" true false 1 [] _)).
  lia.
Defined.

(** ** Reading a resolution back from its pieces *)















Section ProcessMore.
Context {Image Tensor : Type} {libs : Libs Image Tensor}.


(** The calls [process] has logged, in every outcome. *)
Lemma process_calls (self : BiRefNetPipeline Tensor) (image : Image)
    (resolution : string) (rm rf re : bool) (w : Z) (t : trace) :
  exists calls,
    snd (process self image resolution rm rf re w t) = (t ++ calls)%list /\
    (calls = [] \/
     exists size,
       image_resolution image resolution = Ok size /\
       (calls = [CallResize image size] \/
        exists image_pil,
          image_resize image size = Ok image_pil /\
          (calls = [CallResize image size; CallModel] \/
           exists pred_pil,
             calls = [CallResize image size; CallModel;
                      CallResize pred_pil [width image; height image]]))).
Proof.
  unfold process.
  destruct (negb rm && negb rf && negb re)%bool.
  { exists []. rewrite app_nil_r. auto. }
  unfold Eff.bind, Eff.lift, Eff.ret, call_resize, call_birefnet.
  destruct (image_resolution image resolution) as [size |]; cbn [fst snd];
    [| exists []; rewrite app_nil_r; auto].
  assert (Hone : exists calls,
             (t ++ [CallResize image size])%list = (t ++ calls)%list /\
             (calls = [] \/
              exists size0,
                Ok size = Ok size0 /\
                (calls = [CallResize image size0] \/
                 exists image_pil0,
                   image_resize image size0 = Ok image_pil0 /\
                   (calls = [CallResize image size0; CallModel] \/
                    exists pred_pil,
                      calls = [CallResize image size0; CallModel;
                               CallResize pred_pil [width image; height image]])))).
  { exists [CallResize image size]. split; [reflexivity |].
    right. exists size. split; [reflexivity | now left]. }
  destruct (image_resize image size) as [image_pil |] eqn:Hpil; cbn [fst snd];
    [| exact Hone].
  destruct (transform_image image_pil) as [image_proc |]; cbn [fst snd];
    [| exact Hone].
  destruct (to_device _ _) as [on_device |]; cbn [fst snd]; [| exact Hone].
  clear Hone.
  assert (Htwo : exists calls,
             ((t ++ [CallResize image size]) ++ [CallModel])%list
             = (t ++ calls)%list /\
             (calls = [] \/
              exists size0,
                Ok size = Ok size0 /\
                (calls = [CallResize image size0] \/
                 exists image_pil0,
                   image_resize image size0 = Ok image_pil0 /\
                   (calls = [CallResize image size0; CallModel] \/
                    exists pred_pil,
                      calls = [CallResize image size0; CallModel;
                               CallResize pred_pil [width image; height image]])))).
  { exists [CallResize image size; CallModel].
    rewrite <- app_assoc. split; [reflexivity |].
    right. exists size. split; [reflexivity |].
    right. exists image_pil. split; [exact Hpil | now left]. }
  destruct (birefnet self on_device) as [preds |]; cbn [fst snd];
    [| exact Htwo].
  destruct (last_item preds) as [last_pred |]; cbn [fst snd];
    [| exact Htwo].
  destruct (getitem0 _) as [pred0 |]; cbn [fst snd]; [| exact Htwo].
  destruct (to_pil_image _) as [pred_pil |]; cbn [fst snd]; [| exact Htwo].
  clear Htwo.
  exists [CallResize image size; CallModel;
          CallResize pred_pil [width image; height image]].
  split;
    [| right; exists size; split; [reflexivity |];
       right; exists image_pil; split; [exact Hpil |]; right; now exists pred_pil].
  destruct (image_resize pred_pil _); cbn [fst snd];
    [| rewrite <- !app_assoc; reflexivity].
  destruct rf, re; cbn [fst snd];
    repeat match goal with
           | |- context [match ?x with Ok _ => _ | Raise _ => _ end] =>
               destruct x; cbn [fst snd]
           end;
    rewrite <- !app_assoc; reflexivity.
Qed.

(** X12: in every outcome, failures included, [process] only adds to the
    log, and what it adds is a beginning of: the resize of the input, one
    forward pass of the network, the resize of the prediction to
    [image.size].  So the network runs at most once per call, never before
    the input was resized, and nothing is called after the second
    resize. *)
Theorem process_call_sequence :
  forall (self : BiRefNetPipeline Tensor) (image : Image) (resolution : string)
         (return_mask return_foreground return_edge_mask : bool)
         (edge_mask_width : Z) (t : trace),
    exists calls,
      snd (process self image resolution return_mask return_foreground
                   return_edge_mask edge_mask_width t) = (t ++ calls)%list /\
      (calls = [] \/
       exists size,
         calls = [CallResize image size] \/
         calls = [CallResize image size; CallModel] \/
         exists pred_pil,
           calls = [CallResize image size; CallModel;
                    CallResize pred_pil [width image; height image]]).
Proof.
  intros self image resolution rm rf re w t.
  destruct (process_calls self image resolution rm rf re w t)
    as (calls & Hlog & Hcases).
  exists calls. split; [exact Hlog |].
  destruct Hcases as [-> | (size & _ & [-> | (image_pil & _ & [-> | (pred_pil & ->)])])];
    eauto 8.
Qed.


(** X14: dropping flags drops outputs and changes nothing else.  When a
    call returns, the call with fewer flags set (but at least one) returns
    too, with the same log, and each output still asked for is the same
    image. *)
Theorem process_fewer_flags :
  forall (self : BiRefNetPipeline Tensor) (image : Image) (resolution : string)
         (rm rf re rm' rf' re' : bool) (edge_mask_width : Z) (t t' : trace)
         (mask foreground edge_mask : option Image),
    implb rm' rm = true -> implb rf' rf = true -> implb re' re = true ->
    (rm' || rf' || re')%bool = true ->
    process self image resolution rm rf re edge_mask_width t
    = (Ok (mask, foreground, edge_mask), t') ->
    process self image resolution rm' rf' re' edge_mask_width t
    = (Ok (if rm' then mask else None,
           if rf' then foreground else None,
           if re' then edge_mask else None), t').
Proof.
  intros self image resolution rm rf re rm' rf' re' w t t' m f e
         Hm Hf He Hflags' H.
  assert (Hflags : (rm || rf || re)%bool = true)
    by (destruct rm, rf, re, rm', rf', re'; cbn in *; congruence).
  unfold process in *.
  rewrite (flags_some _ _ _ Hflags) in H. rewrite (flags_some _ _ _ Hflags').
  unfold Eff.bind, Eff.lift, Eff.ret, call_resize, call_birefnet in *.
  destruct (image_resolution image resolution) as [size |]; [| discriminate H].
  destruct (image_resize image size) as [image_pil |]; [| discriminate H].
  destruct (transform_image image_pil) as [image_proc |]; [| discriminate H].
  destruct (to_device _ _) as [on_device |]; [| discriminate H].
  destruct (birefnet self on_device) as [preds |]; [| discriminate H].
  destruct (last_item preds) as [last_pred |]; [| discriminate H].
  destruct (getitem0 _) as [pred0 |]; [| discriminate H].
  destruct (to_pil_image _) as [pred_pil |]; [| discriminate H].
  destruct (image_resize pred_pil _) as [mask0 |]; [| discriminate H].
  destruct rf.
  - destruct (refine_foreground image mask0) as [fg |]; [| discriminate H].
    destruct (putalpha fg mask0) as [fg' |]; [| discriminate H].
    destruct re.
    + destruct (get_edge_mask mask0 w) as [em |]; [| discriminate H].
      injection H as <- <- <- <-.
      destruct rm, rm', rf', re'; cbn in *; congruence.
    + injection H as <- <- <- <-.
      destruct rm, rm', rf', re'; cbn in *; congruence.
  - destruct re.
    + destruct (get_edge_mask mask0 w) as [em |]; [| discriminate H].
      injection H as <- <- <- <-.
      destruct rm, rm', rf', re'; cbn in *; congruence.
    + injection H as <- <- <- <-.
      destruct rm, rm', rf', re'; cbn in *; congruence.
Qed.



End ProcessMore.


Lemma process_fewer_flags_witness :
  process (libs := Ref.ref_libs) Ref.pipeline Ref.square "" true false false 4 []
  = (Ok (Ref.run_mask, None, None), snd Ref.run).
Proof.
  refine (process_fewer_flags (libs := Ref.ref_libs)
            Ref.pipeline Ref.square "" true false true true false false 4 []
            (snd Ref.run) Ref.run_mask Ref.run_foreground Ref.run_edge_mask
            _ _ _ _ _); vm_compute; reflexivity.
Defined.



(** ** The device, once more *)

Lemma str_inj (a b : Z) : PyStr.str a = PyStr.str b -> a = b.
Proof.
  intros H. pose proof (int_str a) as Ha. rewrite H, int_str in Ha.
  now injection Ha.
Qed.

(** X17: the device is "cpu", "mps" or "cuda:" followed by [device_id],
    nothing else; MPS wins whenever its probe says yes, whatever the CUDA
    probe would do; and when two device ids lead to the same device while
    CUDA is chosen, they are the same id. *)
Theorem init_device_choice :
  forall (probe : TorchProbe) (flag_force_cpu : bool) (device_id : Z),
    (init_device flag_force_cpu device_id = Ok "cpu" \/
     init_device flag_force_cpu device_id = Ok "mps" \/
     init_device flag_force_cpu device_id = Ok ("cuda:" ++ PyStr.str device_id)) /\
    (mps_is_available = Ok true ->
     init_device false device_id = Ok "mps") /\
    (forall device_id',
        mps_is_available = Ok false -> cuda_is_available = Ok true ->
        init_device false device_id = init_device false device_id' ->
        device_id = device_id').
Proof.
  intros probe flag device_id. unfold init_device, detect_device.
  split; [| split].
  - destruct flag; [now left |].
    destruct mps_is_available as [[|] | e]; cbn; auto.
    destruct cuda_is_available as [[|] | e]; cbn; auto.
  - intros ->. reflexivity.
  - intros device_id' -> ->. cbn. intros H. injection H as H.
    now apply str_inj.
Qed.

Lemma init_device_choice_witness :
  @init_device {| mps_is_available := Ok true;
                  cuda_is_available := Raise RuntimeError |} false 3 = Ok "mps".
Proof.
  apply (proj1 (proj2 (init_device_choice
                         {| mps_is_available := Ok true;
                            cuda_is_available := Raise RuntimeError |} false 3))).
  reflexivity.
Defined.

(** ** Construction *)

Section InitFacts.
Context {W StateDict Net Tensor : Type}.
Context {os : OS W} {probe : TorchProbe} {weights : Weights W StateDict Net Tensor}.

Lemma init_device_ok (flag_force_cpu : bool) (device_id : Z) :
  exists d, init_device flag_force_cpu device_id = Ok d.
Proof.
  unfold init_device. destruct flag_force_cpu; [eauto |].
  destruct (detect_device device_id); cbn; eauto.
Qed.

(** X16: constructing a pipeline touches the file system only through the
    download: in every outcome the file system and the log of calls after
    [__init__] are those after [download_birefnet_model] alone; and when
    the download raises, so does [__init__], with the same exception. *)
Theorem init_state_is_download_state :
  forall (model_name : string) (device_id : Z) (flag_force_cpu use_fp16 : bool)
         (s : dstate),
    snd (BiRefNetPipeline_init model_name device_id flag_force_cpu use_fp16 s)
    = snd (download_birefnet_model model_name s) /\
    (forall e, fst (download_birefnet_model model_name s) = Raise e ->
               fst (BiRefNetPipeline_init model_name device_id flag_force_cpu
                                          use_fp16 s) = Raise e).
Proof.
  intros model_name device_id flag use_fp16 s.
  unfold BiRefNetPipeline_init.
  destruct (init_device_ok flag device_id) as [d Hd]. rewrite Hd.
  unfold Eff.bind, Eff.lift, Eff.ret, call_load_file.
  destruct (download_birefnet_model model_name s) as [[[] | e] s1]; cbn [fst snd].
  - split; [| discriminate].
    repeat match goal with
           | |- context [match ?x with Ok _ => _ | Raise _ => _ end] =>
               destruct x; cbn [fst snd]
           end; reflexivity.
  - split; [reflexivity | intros e' H; now injection H as <-].
Qed.

(** X18: a pipeline that was constructed keeps what it was given, runs on
    the device that was selected, has a model name of the registry, and
    has read its weights from the cache file of that name, on that device,
    after the download returned. *)
Theorem init_returns_loaded_pipeline :
  forall (name : string) (id : Z) (force_cpu fp16 : bool)
         (s s' : dstate) (p : BiRefNetPipeline Tensor),
    BiRefNetPipeline_init name id force_cpu fp16 s = (Ok p, s') ->
    model_name p = name /\
    device_id p = id /\
    flag_force_cpu p = force_cpu /\
    use_fp16 p = fp16 /\
    init_device force_cpu id = Ok (device p) /\
    (force_cpu = true -> device p = "cpu") /\
    (exists registered, dict_get usage_to_weights_file name = Some registered) /\
    download_birefnet_model name s = (Ok tt, s') /\
    exists state_dict,
      load_file (get_model_path name) (device p) (fst s') = Ok state_dict.
Proof.
  intros name id force_cpu fp16 s s' p H.
  unfold BiRefNetPipeline_init in H.
  destruct (init_device_ok force_cpu id) as [d Hd]. rewrite Hd in H.
  unfold Eff.bind, Eff.lift, Eff.ret, call_load_file in H.
  destruct (download_birefnet_model name s) as [[[] | e] s1] eqn:Hdl;
    [| discriminate H].
  destruct (load_file _ d (fst s1)) as [sd |] eqn:Hload; [| discriminate H].
  destruct (new_birefnet _ _) as [n0 |]; [| discriminate H].
  destruct (load_state_dict _ _) as [n1 |]; [| discriminate H].
  destruct (net_to _ _) as [n2 |]; [| discriminate H].
  injection H as <- <-.
  cbn [model_name device_id flag_force_cpu use_fp16 device].
  repeat split; try reflexivity.
  - exact Hd.
  - intros ->. cbn in Hd. now injection Hd.
  - destruct (dict_get usage_to_weights_file name) as [r |] eqn:Hreg;
      [eauto |].
    rewrite (download_birefnet_model_unknown _ _ Hreg) in Hdl. discriminate Hdl.
  - eauto.
Qed.

End InitFacts.

Lemma init_returns_loaded_pipeline_witness :
  init_device (probe := Ref.broken_probe) false 0
  = Ok (device RefNet.built_pipeline) /\
  download_birefnet_model (os := Ref.ref_os) "Matting-Lite" ([], [])
  = (Ok tt, snd RefNet.built).
Proof.
  assert (Hbuilt : BiRefNetPipeline_init (os := Ref.ref_os)
                     (probe := Ref.broken_probe) (weights := RefNet.ref_weights)
                     "Matting-Lite" 0 false true ([], [])
                   = (Ok RefNet.built_pipeline, snd RefNet.built))
    by (vm_compute; reflexivity).
  destruct (init_returns_loaded_pipeline
              (os := Ref.ref_os) (probe := Ref.broken_probe)
              (weights := RefNet.ref_weights)
              "Matting-Lite" 0 false true ([], []) (snd RefNet.built)
              RefNet.built_pipeline Hbuilt)
    as (_ & _ & _ & _ & Hdev & _ & _ & Hdl & _).
  split; assumption.
Defined.

Lemma init_state_is_download_state_witness :
  fst (BiRefNetPipeline_init (os := Ref.ref_os) (probe := Ref.broken_probe)
         (weights := RefNet.ref_weights) "Lite" 0 true true ([], []))
  = Raise (KeyError "Lite").
Proof.
  apply (proj2 (init_state_is_download_state
                  (os := Ref.ref_os) (probe := Ref.broken_probe)
                  (weights := RefNet.ref_weights) "Lite" 0 true true ([], []))).
  reflexivity.
Defined.
